(** * nanoclaw: delegation plan and Telegram channel

    A shallow embedding of
    - the delegation design of [plan.md] (the [delegate] case of
      [processTaskIpc], [handleDelegation], [canDelegate] and
      [trackDelegation]), and
    - [src/channels/telegram.ts] (the grammy handlers and [sendMessage]),
    with the properties of the system specification stated over it. *)

From stdpp Require Import gmap strings pretty list fin_maps.
From Stdlib Require Import ZArith Lia.

Local Open Scope Z_scope.

(** ** JavaScript strings

    A JS string is a sequence of UTF-16 code units; [length], [slice] and
    [substring] count code units.  A code unit is kept as an [N]. *)

Module JS.

Abbreviation jsstring := (list N).

(** The string literal [s] of the source, for ASCII literals. *)
Definition js (s : string) : jsstring :=
  (fun a => Ascii.N_of_ascii a) <$> String.list_ascii_of_string s.

(** Truthiness of a string: every string but the empty one. *)
Definition truthy (s : jsstring) : bool :=
  match s with [] => false | _ :: _ => true end.

(** [a || b] where [a] is a string. *)
Definition or_else (a b : jsstring) : jsstring :=
  if truthy a then a else b.

(** [a || b] where [a] is [string | null | undefined]. *)
Definition opt_or_else (a : option jsstring) (b : jsstring) : jsstring :=
  match a with
  | Some s => or_else s b
  | None => b
  end.

(** [Array.prototype.join]. *)
Fixpoint join (sep : jsstring) (l : list jsstring) : jsstring :=
  match l with
  | [] => []
  | [x] => x
  | x :: rest => x ++ sep ++ join sep rest
  end.

(** [s.slice(i, j)] for [0 <= i <= j]. *)
Definition slice (s : jsstring) (i j : nat) : jsstring :=
  take (j - i) (drop i s).

(** [s.substring(i, j)] for [0 <= i <= j] (no swap, no clamping of
    negative arguments is needed there). *)
Definition substring (s : jsstring) (i j : nat) : jsstring :=
  take (j - i) (drop i s).

(** [s.startsWith(p)]. *)
Fixpoint startsWith (s p : jsstring) {struct p} : bool :=
  match p, s with
  | [], _ => true
  | c :: p', d :: s' => bool_decide (c = d) && startsWith s' p'
  | _ :: _, [] => false
  end.

(** [s.replace(/^p/, '')] for a literal [p]: drop the prefix when it is
    there. *)
Definition strip_prefix (p s : jsstring) : jsstring :=
  if startsWith s p then drop (length p) s else s.

(** How the promise of an [async] function ends: the function returned,
    or an exception left it. *)
Inductive Completion := Returned | Threw (err : jsstring).

End JS.
Import JS.

(** ** The delegation pool ([src/container-runner.ts] of plan.md, §8) *)

Module Pool.

Definition MAX_DELEGATION_CONTAINERS : Z := 3.

(** How the call [fn()] inside [trackDelegation] ends: it hands back a
    promise, or it throws before handing one back. *)
Inductive FnStart := ReturnsPromise | ThrowsSync.

(** The module state.  [activeDelegations] is the counter of the source.
    [pending] holds the promises that carry a [finally] callback and have
    not settled, [released] the ones whose callback has run; [fresh] names
    the next promise. *)
Record Runner := mkRunner {
  activeDelegations : Z;
  pending : list nat;
  released : list nat;
  fresh : nat
}.

Definition init : Runner := mkRunner 0 [] [] 0.

Definition canDelegate (r : Runner) : bool :=
  activeDelegations r <? MAX_DELEGATION_CONTAINERS.

(** [trackDelegation(fn)]: the increment, then [fn()], then the callback
    is attached to the promise that came back.  When [fn()] throws there
    is no promise to attach to and the exception leaves
    [trackDelegation]. *)
Definition trackDelegation (b : FnStart) (r : Runner) : Runner :=
  match b with
  | ReturnsPromise =>
      mkRunner (activeDelegations r + 1) (fresh r :: pending r)
               (released r) (S (fresh r))
  | ThrowsSync =>
      mkRunner (activeDelegations r + 1) (pending r) (released r) (S (fresh r))
  end.

(** The promise [p] is fulfilled or rejected: the [finally] callback runs
    in both cases.  A promise settles once; one that is not pending has no
    callback left to run. *)
Definition settle (p : nat) (r : Runner) : Runner :=
  if bool_decide (p ∈ pending r) then
    mkRunner (activeDelegations r - 1)
             (filter (fun q => q <> p) (pending r))
             (p :: released r) (fresh r)
  else r.

Inductive Event :=
| Track (b : FnStart)
| Settle (p : nat) (fulfilled : bool).

Definition step (r : Runner) (e : Event) : Runner :=
  match e with
  | Track b => trackDelegation b r
  | Settle p _ => settle p r
  end.

Definition run (r : Runner) (tr : list Event) : Runner := foldl step r tr.

(** Every [fn] of the trace hands back a promise. *)
Definition promise_fns (tr : list Event) : bool :=
  forallb (fun e => match e with Track ThrowsSync => false | _ => true end) tr.

(** Every [trackDelegation] of the trace is called while [canDelegate()]
    holds (the caller checks before it calls). *)
Fixpoint guarded (r : Runner) (tr : list Event) : bool :=
  match tr with
  | [] => true
  | e :: tr' =>
      match e with
      | Track _ => canDelegate r
      | Settle _ _ => true
      end && guarded (step r e) tr'
  end.

(** The promises and the counter agree: a promise that was handed back is
    pending or released, never both and never twice, and the counter is
    the number of pending ones. *)
Record Inv (r : Runner) : Prop := mkInv {
  inv_pending : NoDup (pending r);
  inv_released : NoDup (released r);
  inv_disjoint : forall p, p ∈ pending r -> p ∉ released r;
  inv_fresh : forall p, (p < fresh r)%nat <-> p ∈ pending r \/ p ∈ released r;
  inv_count : activeDelegations r = Z.of_nat (length (pending r))
}.

(** Four delegations tracked one after the other, none settled. *)
Definition four_tracks : list Event :=
  [Track ReturnsPromise; Track ReturnsPromise; Track ReturnsPromise;
   Track ReturnsPromise].

(** Three delegations, the second of which is rejected before the third
    starts, and the first fulfilled at the end. *)
Definition three_guarded : list Event :=
  [Track ReturnsPromise; Track ReturnsPromise; Settle 1 false;
   Track ReturnsPromise; Settle 0 true].

End Pool.

(** ** Delegation on the host ([src/ipc.ts] of plan.md, §2 and §3) *)

Module Delegation.

(** [src/config.ts] of plan.md, §4. *)
Definition DELEGATION_POLL_INTERVAL : Z := 2000.
Definition DELEGATION_DEFAULT_TIMEOUT : Z := 300.
Definition DELEGATION_MAX_TIMEOUT : Z := 1800.

(** [src/types.ts] of plan.md, §5 ([additionalMounts] plays no part). *)
Record ContainerConfig := mkContainerConfig {
  timeout : option Z;
  allowDelegation : option (list jsstring)
}.

Record RegisteredGroup := mkRegisteredGroup {
  name : jsstring;
  folder : jsstring;
  trigger : jsstring;
  added_at : jsstring;
  jid : option jsstring;
  containerConfig : option ContainerConfig
}.

(** The fields the [delegate] case takes out of the task. *)
Record DelegateTask := mkDelegateTask {
  requestId : jsstring;
  targetGroup : jsstring;
  prompt : jsstring;
  timeoutSeconds : Z
}.

Inductive Status := success | error.

(** The object handed to [JSON.stringify]; an absent key is [None]. *)
Record DelegationOutcome := mkOutcome {
  o_status : Status;
  o_result : option jsstring;
  o_error : option jsstring;
  o_targetGroup : option jsstring
}.

(** What the [delegate] case does to the world: it calls
    [writeIpcResult(sourceGroup, requestId, outcome)], the helper that
    writes an outcome back to the requester (plan.md names it and does not
    define it, so the call itself is the effect), or it fires
    [handleDelegation] off (the call is not awaited). *)
Inductive Effect :=
| WriteIpcResult (sourceGroup requestId : jsstring) (o : DelegationOutcome)
| HandleDelegation (sourceGroup : jsstring) (target : RegisteredGroup)
    (requestId prompt : jsstring) (timeoutSeconds : Z).

(** The host: [registeredGroups] is a JS object keyed by jid, kept in
    insertion order as [Object.values] walks it, and the delegation
    counter of the runner module. *)
Record Host := mkHost {
  registeredGroups : list (jsstring * RegisteredGroup);
  runner : Pool.Runner
}.

(** [Object.values(registeredGroups).find(g => g.folder === targetGroup)]. *)
Definition find_target (groups : list (jsstring * RegisteredGroup))
    (targetGroup : jsstring) : option RegisteredGroup :=
  List.find (fun g => bool_decide (folder g = targetGroup)) (snd <$> groups).

(** [case 'delegate'] of [processTaskIpc].  The authorization of the
    source group is a comment in the source; the code looks the target up
    and dispatches. *)
Definition processTaskIpc_delegate (h : Host) (sourceGroup : jsstring)
    (task : DelegateTask) : Host * list Effect :=
  match find_target (registeredGroups h) (targetGroup task) with
  | None =>
      (h, [WriteIpcResult sourceGroup (requestId task)
             (mkOutcome error None (Some (js "Unknown group")) None)])
  | Some targetRegistered =>
      (h, [HandleDelegation sourceGroup targetRegistered (requestId task)
             (prompt task) (timeoutSeconds task)])
  end.

(** *** What the code decides, read off its effects *)

Inductive Decision := Allow | Deny | UnknownGroup.

Definition is_spawn (e : Effect) : bool :=
  match e with HandleDelegation _ _ _ _ _ => true | _ => false end.

Definition is_unknown_group_write (e : Effect) : bool :=
  match e with
  | WriteIpcResult _ _ o => bool_decide (o_error o = Some (js "Unknown group"))
  | _ => false
  end.

Definition code_decision (h : Host) (sourceGroup : jsstring)
    (task : DelegateTask) : Decision :=
  let effects := snd (processTaskIpc_delegate h sourceGroup task) in
  if existsb is_spawn effects then Allow
  else if existsb is_unknown_group_write effects then UnknownGroup
  else Deny.

(** *** The authorization table, as the specification words it

    §4.3 (and the "Authorization Model" table of plan.md), row by row; it
    is here to be compared with [code_decision]. *)

Definition allowDelegation_of (groups : list (jsstring * RegisteredGroup))
    (sourceGroup : jsstring) : list jsstring :=
  match find_target groups sourceGroup with
  | Some g =>
      match containerConfig g with
      | Some c => default [] (allowDelegation c)
      | None => []
      end
  | None => []
  end.

Definition table_decision (MAIN_GROUP_FOLDER : jsstring)
    (groups : list (jsstring * RegisteredGroup))
    (sourceGroup targetFolder : jsstring) : Decision :=
  match find_target groups targetFolder with
  | None => UnknownGroup
  | Some _ =>
      if bool_decide (sourceGroup = MAIN_GROUP_FOLDER) then Allow
      else if bool_decide (targetFolder = sourceGroup) then Allow
      else if bool_decide (targetFolder = MAIN_GROUP_FOLDER) then Deny
      else if bool_decide (targetFolder ∈ allowDelegation_of groups sourceGroup)
           then Allow
      else Deny
  end.

(** *** [handleDelegation] *)

(** The part of [ContainerOutput] that [handleDelegation] reads:
    [result: string | null]. *)
Record ContainerOutput := mkOutput { result : option jsstring }.

(** How [await runContainerAgent(...)] ends, as [handleDelegation] sees
    it: the streaming callback was called on [streamed], one output after
    the other, and then the promise was fulfilled with [output] or
    rejected with an error whose [String(err)] is [err].  A throw of
    [readSecrets()] is a rejection with nothing streamed.  What the
    container does to the files of the host while it runs (its logs, its
    clean-up at start-up) is no part of a run: [handleDelegation] touches
    the files after the [await] only, and is given them as they are when
    the promise settles. *)
Inductive AgentRun :=
| Fulfilled (streamed : list ContainerOutput) (output : ContainerOutput)
| Rejected (streamed : list ContainerOutput) (err : jsstring).

(** The files of the host, with the JSON text of an outcome file kept as
    the object it encodes.  [faulty] are the paths at which
    [fs.writeFileSync] throws (no directory, no permission, no space). *)
Record FS := mkFS {
  files : gmap jsstring DelegationOutcome;
  faulty : gset jsstring
}.

(** [fs.writeFileSync(path, JSON.stringify(data))]: the file is written
    whole, or the call throws and nothing is written. *)
Definition writeFileSync (fs : FS) (path : jsstring) (data : DelegationOutcome)
    : FS + jsstring :=
  if bool_decide (path ∈ faulty fs) then inr (js "Error: write failed")
  else inl (mkFS (<[path := data]> (files fs)) (faulty fs)).

(** [path.join] on segments that are plain names, which it joins by the
    separator.  [path.join] also normalizes its result (it resolves dot
    segments and drops empty ones), so a segment that holds a separator
    is outside this definition: the statements on the outcome files of a
    request take the request id to hold none. *)
Definition path_join (segments : list jsstring) : jsstring :=
  join (js "/") segments.

(** [async (out) => { if (out.result) results.push(out.result); }] *)
Definition on_output (results : list jsstring) (out : ContainerOutput)
    : list jsstring :=
  match result out with
  | Some s => if truthy s then results ++ [s] else results
  | None => results
  end.

(** [a || b] where [a] is a string and [b] is [string | null]. *)
Definition or_opt (a : jsstring) (b : option jsstring) : option jsstring :=
  if truthy a then Some a else b.

(** [results.join('\n\n') || output.result || '(no output)'] *)
Definition result_text (results : list jsstring) (output : ContainerOutput)
    : jsstring :=
  opt_or_else (or_opt (join [10%N; 10%N] results) (result output))
              (js "(no output)").

Section WithConfig.

(** [DATA_DIR] of [src/config.ts]. *)
Variable DATA_DIR : jsstring.

Definition resultDir (sourceGroup : jsstring) : jsstring :=
  path_join [DATA_DIR; js "ipc"; sourceGroup; js "input"].

Definition resultFile (sourceGroup requestId : jsstring) : jsstring :=
  path_join [resultDir sourceGroup;
             js "delegate-result-" ++ requestId ++ js ".json"].

Definition errorFile (sourceGroup requestId : jsstring) : jsstring :=
  path_join [resultDir sourceGroup;
             js "delegate-error-" ++ requestId ++ js ".json"].

(** The body of the [try] block: the outcome file is written after the
    run was fulfilled; a rejected [await] and a throwing write both leave
    the block with the error. *)
Definition try_block (fs : FS) (sourceGroup : jsstring)
    (target : RegisteredGroup) (requestId : jsstring) (run : AgentRun)
    : FS + jsstring :=
  match run with
  | Fulfilled streamed output =>
      let results := foldl on_output [] streamed in
      writeFileSync fs (resultFile sourceGroup requestId)
        (mkOutcome success (Some (result_text results output)) None
                   (Some (folder target)))
  | Rejected _ err => inr err
  end.

(** [handleDelegation]: the [try] block, and the [catch] block that
    writes the error file.  A write that throws inside [catch] leaves the
    function.  [prompt] goes to [runContainerAgent]; [timeoutSeconds] is
    not read by the body.  [fs] is the files of the host when the awaited
    promise settles. *)
Definition handleDelegation (fs : FS) (sourceGroup : jsstring)
    (target : RegisteredGroup) (requestId prompt : jsstring)
    (timeoutSeconds : Z) (run : AgentRun) : FS * Completion :=
  match try_block fs sourceGroup target requestId run with
  | inl fs' => (fs', Returned)
  | inr err =>
      match writeFileSync fs (errorFile sourceGroup requestId)
              (mkOutcome error None (Some err) (Some (folder target))) with
      | inl fs' => (fs', Returned)
      | inr err' => (fs, Threw err')
      end
  end.

End WithConfig.

(** *** The output fragments, as the specification words them

    The fragments of a run are the result texts that were streamed, in
    the order they arrived; an output whose result is [null] or empty
    carries no fragment. *)
Definition fragments_of (streamed : list ContainerOutput) : list jsstring :=
  omap (fun out =>
          match result out with
          | Some s => if truthy s then Some s else None
          | None => None
          end) streamed.

(** *** Example data *)

Definition group (folder : string) (allow : option (list jsstring))
    : jsstring * RegisteredGroup :=
  (js "tg:" ++ js folder,
   mkRegisteredGroup (js folder) (js folder) (js "@Andy")
     (js "2024-01-01T00:00:00.000Z") (Some (js "tg:" ++ js folder))
     (Some (mkContainerConfig None allow))).

Definition example_groups : list (jsstring * RegisteredGroup) :=
  [group "main" None;
   group "research" (Some [js "browser"]);
   group "escalate" (Some [js "main"]);
   group "finance" None;
   group "browser" None;
   group "gmail-reader" None].

(** A host on which three tracked delegations are running. *)
Definition busy_host : Host :=
  mkHost example_groups
    (Pool.run Pool.init
       [Pool.Track Pool.ReturnsPromise; Pool.Track Pool.ReturnsPromise;
        Pool.Track Pool.ReturnsPromise]).

Definition idle_host : Host := mkHost example_groups Pool.init.

Definition example_task (target : string) : DelegateTask :=
  mkDelegateTask (js "1700000000000-abc123") (js target)
    (js "list unread senders") 60.

Definition target_of (folder : string) : RegisteredGroup := snd (group folder None).

Definition empty_fs : FS := mkFS ∅ ∅.

End Delegation.

(** ** The requester's wait for the outcome

    The [delegate] tool of [container/agent-runner/src/ipc-mcp-stdio.ts]
    is described by plan.md (§1, handler logic) and by §4.4 of the
    specification; its code is not part of the sources at hand. *)

Module ResultChannel.

Import Delegation.

(** Modelled from the spec: the result location of a request, which the
    requester sees under [/workspace/ipc/input] (plan.md §1, steps 3 and 6). *)
Definition resultPath (requestId : jsstring) : jsstring :=
  js "/workspace/ipc/input/delegate-result-" ++ requestId ++ js ".json".

(** Modelled from the spec: the location of the error artifact (plan.md §1,
    step 6). *)
Definition errorPath (requestId : jsstring) : jsstring :=
  js "/workspace/ipc/input/delegate-error-" ++ requestId ++ js ".json".

(** Modelled from the spec: what the wait hands to the agent, the parsed
    outcome or the client-side timeout (§4.4). *)
Inductive WaitResult :=
| Delivered (o : DelegationOutcome)
| TimedOut.

(** Modelled from the spec: the result of a wait, that is what is
    returned, the files left behind, and the times (in ms since the start
    of the wait) at which the result location was looked at. *)
Record Wait := mkWait {
  returned : WaitResult;
  fs_after : FS;
  poll_times : list Z
}.

(** Modelled from the spec: one look at the result location (§4.4: on
    finding either the success or error artifact, it reads, deletes it and
    returns the parsed outcome).  The success artifact is looked for
    first. *)
Definition consume (requestId : jsstring) (fs : FS)
    : option (DelegationOutcome * FS) :=
  match files fs !! resultPath requestId with
  | Some o => Some (o, mkFS (delete (resultPath requestId) (files fs)) (faulty fs))
  | None =>
      match files fs !! errorPath requestId with
      | Some o => Some (o, mkFS (delete (errorPath requestId) (files fs)) (faulty fs))
      | None => None
      end
  end.

Section Wait.

(** What the host does to the requester's files while the requester
    sleeps for the [k]-th time. *)
Variable host : nat -> FS -> FS.
Variable requestId : jsstring.
Variable pollIntervalMs : Z.

(** Modelled from the spec: the polling loop of [awaitResult] (§4.4; plan.md §1,
    steps 3 to 6), which is absent from the sources.  The location is looked at,
    and while nothing is there and the timeout has not elapsed the
    requester sleeps for one poll interval and looks again.  [remaining]
    counts the looks still to come after this one, [k] the looks done. *)
Fixpoint wait_loop (remaining k : nat) (fs : FS) (times : list Z) : Wait :=
  let now := Z.of_nat k * pollIntervalMs in
  match consume requestId fs with
  | Some (o, fs') => mkWait (Delivered o) fs' (times ++ [now])
  | None =>
      match remaining with
      | O => mkWait TimedOut fs (times ++ [now])
      | S remaining' => wait_loop remaining' (S k) (host k fs) (times ++ [now])
      end
  end.

(** Modelled from the spec: [awaitResult(requestId, pollIntervalMs, timeoutMs)]
    (§4.4), absent from the sources.  The looks happen at the multiples of the
    poll interval that do not exceed the timeout. *)
Definition awaitResult (timeoutMs : Z) (fs : FS) : Wait :=
  wait_loop (Z.to_nat (timeoutMs / pollIntervalMs)) 0 fs [].

(** The times of [n] looks in a row, from the look number [k] on. *)
Definition times_from (k n : nat) : list Z :=
  (fun j => Z.of_nat j * pollIntervalMs) <$> seq k n.

(** The files as the requester finds them at its [k]-th look, when it has
    consumed nothing so far. *)
Fixpoint fs_at (k : nat) (fs : FS) : FS :=
  match k with
  | O => fs
  | S k' => host k' (fs_at k' fs)
  end.

End Wait.

(** Modelled from the spec: the wait of the [delegate] tool, with the poll
    interval of [src/config.ts] and [timeout_seconds] (default 300) turned
    into milliseconds. *)
Definition delegate_wait (host : nat -> FS -> FS) (requestId : jsstring)
    (timeout_seconds : option Z) (fs : FS) : Wait :=
  awaitResult host requestId DELEGATION_POLL_INTERVAL
    (default DELEGATION_DEFAULT_TIMEOUT timeout_seconds * 1000) fs.

(** A host that writes the success artifact of the request while the
    requester sleeps for the second time. *)
Definition example_host (requestId : jsstring) (o : DelegationOutcome)
    (k : nat) (fs : FS) : FS :=
  if bool_decide (k = 1%nat)
  then mkFS (<[resultPath requestId := o]> (files fs)) (faulty fs)
  else fs.

Definition example_outcome : DelegationOutcome :=
  mkOutcome success (Some (js "Alice" ++ [10%N; 10%N] ++ js "Bob")) None
    (Some (js "gmail-reader")).

End ResultChannel.

(** ** The Telegram channel ([src/channels/telegram.ts]) *)

Module Telegram.

(** *** What grammy hands to a handler *)

Record User := mkUser {
  id : Z;
  first_name : jsstring;
  username : option jsstring
}.

Record Chat := mkChat {
  chat_id : Z;
  chat_type : jsstring;
  title : option jsstring
}.

Record MessageEntity := mkEntity {
  type : jsstring;
  offset : nat;
  length : nat
}.

(** The payload that decides which [bot.on('message:...')] filter a
    message passes. *)
Inductive Content :=
| Text (text : jsstring) (entities : option (list MessageEntity))
| Photo
| Video
| Voice
| Audio
| Document (file_name : option jsstring)
| Sticker (emoji : option jsstring)
| Location
| Contact
| Other.

Record Message := mkMessage {
  message_id : Z;
  date : Z;
  content : Content;
  caption : option jsstring
}.

Record Ctx := mkCtx {
  from : option User;
  chat : Chat;
  message : Message;
  me_username : option jsstring
}.

(** *** What the channel is built from *)

(** [../config.js]. *)
Record Config := mkConfig {
  ASSISTANT_NAME : jsstring;
  TELEGRAM_ALLOWED_USERS : gset jsstring;
  TRIGGER_PATTERN_test : jsstring -> bool
}.

(** Built-ins of the language and of grammy that the handlers call:
    [String.prototype.toLowerCase], [Number.prototype.toString],
    [new Date(ms).toISOString()], and the filter behind
    [bot.command(name, ...)]. *)
Record Builtins := mkBuiltins {
  toLowerCase : jsstring -> jsstring;
  toString : Z -> jsstring;
  toISOString : Z -> jsstring;
  hasCommand : jsstring -> Ctx -> bool
}.

(** [AdminCommands] of [../types.js]: each call resolves to the text that
    is sent back. *)
Record AdminCommands := mkAdminCommands {
  resetSession : jsstring -> jsstring;
  resetMemory : jsstring -> jsstring;
  restartContainer : jsstring -> jsstring;
  rebuildContainer : jsstring
}.

(** [TelegramChannelOpts]: [onMessage] and [onChatMetadata] show up as
    effects below. *)
Record TelegramChannelOpts := mkOpts {
  registeredGroups : gmap jsstring Delegation.RegisteredGroup;
  adminCommands : option AdminCommands
}.

(** The message handed to [onMessage]. *)
Record NewMessage := mkNewMessage {
  nm_id : jsstring;
  nm_chat_jid : jsstring;
  nm_sender : jsstring;
  nm_sender_name : jsstring;
  nm_content : jsstring;
  nm_timestamp : jsstring;
  nm_is_from_me : bool
}.

Inductive AdminCall :=
| ResetSession (folder : jsstring)
| ResetMemory (folder : jsstring)
| RestartContainer (folder : jsstring)
| RebuildContainer.

(** What a handler does, in the order it does it. *)
Inductive Effect :=
| Reply (text : jsstring)
| OnChatMetadata (chatJid timestamp : jsstring) (name : option jsstring)
| OnMessage (chatJid : jsstring) (msg : NewMessage)
| Admin (call : AdminCall)
| Log (level message : jsstring).

Section Handlers.

Variable cfg : Config.
Variable lib : Builtins.
Variable opts : TelegramChannelOpts.

(** [ctx.from?.id?.toString() || ''] *)
Definition userId_of (ctx : Ctx) : jsstring :=
  match from ctx with
  | Some u => or_else (toString lib (id u)) []
  | None => []
  end.

(** [TELEGRAM_ALLOWED_USERS.size > 0 && !TELEGRAM_ALLOWED_USERS.has(userId)] *)
Definition blocked (ctx : Ctx) : bool :=
  (0 <? Z.of_nat (size (TELEGRAM_ALLOWED_USERS cfg)))
  && negb (bool_decide (userId_of ctx ∈ TELEGRAM_ALLOWED_USERS cfg)).

(** [`tg:${ctx.chat.id}`] *)
Definition chatJid_of (ctx : Ctx) : jsstring :=
  js "tg:" ++ toString lib (chat_id (chat ctx)).

(** [bot.command('chatid', ...)] *)
Definition on_chatid (ctx : Ctx) : list Effect :=
  let chatType := chat_type (chat ctx) in
  let chatName :=
    if bool_decide (chatType = js "private")
    then opt_or_else (first_name <$> from ctx) (js "Private")
    else opt_or_else (title (chat ctx)) (js "Unknown") in
  [Reply (js "Chat ID: `tg:" ++ toString lib (chat_id (chat ctx)) ++ js "`"
          ++ [10%N] ++ js "Name: " ++ chatName
          ++ [10%N] ++ js "Type: " ++ chatType)].

(** [bot.command('ping', ...)] *)
Definition on_ping (ctx : Ctx) : list Effect :=
  [Reply (ASSISTANT_NAME cfg ++ js " is online.")].

(** [adminGuard]: the folder, or [null], and the replies sent on the
    way. *)
Definition adminGuard (ctx : Ctx) : option jsstring * list Effect :=
  if blocked ctx then (None, [])
  else
    match registeredGroups opts !! chatJid_of ctx with
    | None => (None, [Reply (js "This chat is not registered.")])
    | Some group =>
        match adminCommands opts with
        | None => (None, [Reply (js "Admin commands not available.")])
        | Some _ => (Some (Delegation.folder group), [])
        end
    end.

(** The three handlers [reset_session], [reset_memory] and [restart]:
    [if (!folder) return;] also leaves on an empty folder. *)
Definition on_admin (call : jsstring -> AdminCall)
    (run : AdminCommands -> jsstring -> jsstring) (ctx : Ctx) : list Effect :=
  let '(folder, replies) := adminGuard ctx in
  match folder, adminCommands opts with
  | Some f, Some ac =>
      if truthy f then replies ++ [Admin (call f); Reply (run ac f)]
      else replies
  | _, _ => replies
  end.

Definition on_reset_session := on_admin ResetSession resetSession.
Definition on_reset_memory := on_admin ResetMemory resetMemory.
Definition on_restart := on_admin RestartContainer restartContainer.

(** [bot.command('rebuild', ...)] *)
Definition on_rebuild (ctx : Ctx) : list Effect :=
  if blocked ctx then []
  else
    match adminCommands opts with
    | None => [Reply (js "Admin commands not available.")]
    | Some ac =>
        [Reply (js "Rebuilding container image..."); Admin RebuildContainer;
         Reply (rebuildContainer ac)]
    end.

(** [ctx.from?.first_name || ctx.from?.username || ctx.from?.id.toString()
    || 'Unknown'] *)
Definition senderName_of (ctx : Ctx) : jsstring :=
  match from ctx with
  | Some u =>
      or_else (first_name u)
        (opt_or_else (username u) (or_else (toString lib (id u)) (js "Unknown")))
  | None => js "Unknown"
  end.

(** The callback given to [entities.some]. *)
Definition is_bot_mention (content botUsername : jsstring)
    (entity : MessageEntity) : bool :=
  if bool_decide (type entity = js "mention") then
    let mentionText :=
      toLowerCase lib
        (substring content (offset entity) (offset entity + length entity)) in
    bool_decide (mentionText = js "@" ++ botUsername)
  else false.

(** The translation of an [@bot_username] mention into the trigger
    format. *)
Definition translate_mention (ctx : Ctx) (text : jsstring)
    (entities : option (list MessageEntity)) : jsstring :=
  match toLowerCase lib <$> me_username ctx with
  | Some botUsername =>
      if truthy botUsername then
        let isBotMentioned :=
          existsb (is_bot_mention text botUsername) (default [] entities) in
        if isBotMentioned && negb (TRIGGER_PATTERN_test cfg text)
        then js "@" ++ ASSISTANT_NAME cfg ++ js " " ++ text
        else text
      else text
  | None => text
  end.

(** [bot.on('message:text', ...)] *)
Definition on_message_text (ctx : Ctx) (text : jsstring)
    (entities : option (list MessageEntity)) : list Effect :=
  if startsWith text (js "/") then []
  else if blocked ctx then
    [Log (js "debug") (js "Ignoring message from unauthorized user")]
  else
    let chatJid := chatJid_of ctx in
    let timestamp := toISOString lib (date (message ctx) * 1000) in
    let senderName := senderName_of ctx in
    let sender :=
      match from ctx with
      | Some u => or_else (toString lib (id u)) []
      | None => []
      end in
    let msgId := toString lib (message_id (message ctx)) in
    let chatName :=
      if bool_decide (chat_type (chat ctx) = js "private") then senderName
      else opt_or_else (title (chat ctx)) chatJid in
    let content := translate_mention ctx text entities in
    OnChatMetadata chatJid timestamp (Some chatName) ::
    match registeredGroups opts !! chatJid with
    | None => [Log (js "debug") (js "Message from unregistered Telegram chat")]
    | Some _ =>
        [OnMessage chatJid
           (mkNewMessage msgId chatJid sender senderName content timestamp false);
         Log (js "info") (js "Telegram message stored")]
    end.

(** [storeNonText] *)
Definition storeNonText (ctx : Ctx) (placeholder : jsstring) : list Effect :=
  if blocked ctx then []
  else
    let chatJid := chatJid_of ctx in
    match registeredGroups opts !! chatJid with
    | None => []
    | Some _ =>
        let timestamp := toISOString lib (date (message ctx) * 1000) in
        let senderName := senderName_of ctx in
        let caption :=
          match caption (message ctx) with
          | Some c => if truthy c then js " " ++ c else []
          | None => []
          end in
        [OnChatMetadata chatJid timestamp None;
         OnMessage chatJid
           (mkNewMessage (toString lib (message_id (message ctx))) chatJid
              (userId_of ctx) senderName (placeholder ++ caption) timestamp
              false)]
    end.

(** The handlers in the order [connect] registers them.  A handler that
    runs does not call [next], so the first filter a message passes
    decides. *)
Definition handle (ctx : Ctx) : list Effect :=
  if hasCommand lib (js "chatid") ctx then on_chatid ctx
  else if hasCommand lib (js "ping") ctx then on_ping ctx
  else if hasCommand lib (js "reset_session") ctx then on_reset_session ctx
  else if hasCommand lib (js "reset_memory") ctx then on_reset_memory ctx
  else if hasCommand lib (js "restart") ctx then on_restart ctx
  else if hasCommand lib (js "rebuild") ctx then on_rebuild ctx
  else
    match content (message ctx) with
    | Text text entities => on_message_text ctx text entities
    | Photo => storeNonText ctx (js "[Photo]")
    | Video => storeNonText ctx (js "[Video]")
    | Voice => storeNonText ctx (js "[Voice message]")
    | Audio => storeNonText ctx (js "[Audio]")
    | Document file_name =>
        storeNonText ctx
          (js "[Document: " ++ opt_or_else file_name (js "file") ++ js "]")
    | Sticker emoji =>
        storeNonText ctx (js "[Sticker " ++ opt_or_else emoji [] ++ js "]")
    | Location => storeNonText ctx (js "[Location]")
    | Contact => storeNonText ctx (js "[Contact]")
    | Other => []
    end.

End Handlers.

(** *** Effects by kind *)

Definition is_log (e : Effect) : bool :=
  match e with Log _ _ => true | _ => false end.

Definition is_reply (e : Effect) : bool :=
  match e with Reply _ => true | _ => false end.

Definition is_callback (e : Effect) : bool :=
  match e with OnChatMetadata _ _ _ | OnMessage _ _ => true | _ => false end.

Definition is_admin (e : Effect) : bool :=
  match e with Admin _ => true | _ => false end.

(** The messages handed to [onMessage]. *)
Definition delivered (effects : list Effect) : list NewMessage :=
  omap (fun e => match e with OnMessage _ m => Some m | _ => None end) effects.

(** Everything but the diagnostics of the logger. *)
Definition observable (effects : list Effect) : list Effect :=
  filter (fun e => is_log e = false) effects.

(** *** [sendMessage] *)

(** The Bot API behind [this.bot.api]: the calls made so far, and how the
    calls to come will end ([true]: the promise is fulfilled, [false]: it
    is rejected); past the end of [outcomes] every call is fulfilled. *)
Record Api := mkApi {
  sent : list (jsstring * jsstring);
  outcomes : list bool
}.

(** [this.bot]: [null] until [connect] and after [disconnect]. *)
Record Channel := mkChannel { bot : option Api }.

(** [await this.bot.api.sendMessage(chat, text)] *)
Definition api_sendMessage (a : Api) (chat text : jsstring) : Api * bool :=
  (mkApi (sent a ++ [(chat, text)]) (tail (outcomes a)),
   match outcomes a with [] => true | ok :: _ => ok end).

Definition MAX_LENGTH : nat := 4096.

(** [for (let i = ...; i < text.length; i += MAX_LENGTH)
      await this.bot.api.sendMessage(numericId, text.slice(i, i + MAX_LENGTH));]
    from the index [i] on.  The result is the API afterwards and whether
    the loop ran to its end ([false]: a call was rejected and the
    exception left the loop); [None] when [fuel] iterations were not
    enough. *)
Fixpoint send_chunks (fuel : nat) (a : Api) (numericId text : jsstring)
    (i : nat) : option (Api * bool) :=
  if (i <? List.length text)%nat then
    match fuel with
    | O => None
    | S fuel' =>
        let '(a', ok) :=
          api_sendMessage a numericId (slice text i (i + MAX_LENGTH)) in
        if ok then send_chunks fuel' a' numericId text (i + MAX_LENGTH)%nat
        else Some (a', false)
    end
  else Some (a, true).

(** The body of the [try] block. *)
Definition send_body (a : Api) (jid text : jsstring) : option (Api * bool) :=
  let numericId := strip_prefix (js "tg:") jid in
  if (List.length text <=? MAX_LENGTH)%nat then
    Some (api_sendMessage a numericId text)
  else send_chunks (List.length text) a numericId text 0.

(** [sendMessage(jid, text)]: the channel afterwards, what was logged, and
    how the promise of the call ends.  [None] stands for a loop that did
    not come to its end. *)
Definition sendMessage (c : Channel) (jid text : jsstring)
    : option (Channel * list Effect * Completion) :=
  match bot c with
  | None =>
      Some (c, [Log (js "warn") (js "Telegram bot not initialized")],
            Returned)
  | Some a =>
      match send_body a jid text with
      | None => None
      | Some (a', true) =>
          Some (mkChannel (Some a'),
                [Log (js "info") (js "Telegram message sent")],
                Returned)
      | Some (a', false) =>
          Some (mkChannel (Some a'),
                [Log (js "error") (js "Failed to send Telegram message")],
                Returned)
      end
  end.

(** The calls a [sendMessage] added to the log of the API. *)
Definition calls_of (c : Channel) : list (jsstring * jsstring) :=
  match bot c with Some a => sent a | None => [] end.

(** The pieces of [text] that the loop cuts, from the index [i] on: what
    a run in which every call is fulfilled sends. *)
Fixpoint chunks_from (fuel : nat) (text : jsstring) (i : nat) : list jsstring :=
  if (i <? List.length text)%nat then
    match fuel with
    | O => []
    | S fuel' =>
        slice text i (i + MAX_LENGTH) :: chunks_from fuel' text (i + MAX_LENGTH)
    end
  else [].

Definition chunks (text : jsstring) : list jsstring :=
  if (List.length text <=? MAX_LENGTH)%nat then [text]
  else chunks_from (List.length text) text 0.

(** *** The mention of the bot, as the claim words it

    The bot has a username, and the message carries a mention entity whose
    text is the [@username] of the bot, case put aside. *)
Definition mentions_bot (lib : Builtins) (ctx : Ctx) (text : jsstring)
    (entities : option (list MessageEntity)) : Prop :=
  exists botUsername entity,
    me_username ctx = Some botUsername /\
    toLowerCase lib botUsername <> [] /\
    entity ∈ default [] entities /\
    type entity = js "mention" /\
    toLowerCase lib
      (substring text (offset entity) (offset entity + length entity))
    = js "@" ++ toLowerCase lib botUsername.

(** *** Example data *)

(** Lower case of the letters A to Z. *)
Definition ascii_lower (s : jsstring) : jsstring :=
  (fun c => if ((65 <=? c) && (c <=? 90))%N then (c + 32)%N else c) <$> s.

Definition example_cfg : Config :=
  mkConfig (js "Andy") {[ js "1001" ]}
    (fun text => startsWith (ascii_lower text) (js "@andy")).

(** A command filter that passes a text message that is the command
    alone. *)
Definition example_lib : Builtins :=
  mkBuiltins ascii_lower (fun z => js (pretty z))
    (fun ms => js "t" ++ js (pretty ms))
    (fun cmd ctx =>
       match content (message ctx) with
       | Text text _ => bool_decide (text = js "/" ++ cmd)
       | _ => false
       end).

Definition example_opts : TelegramChannelOpts :=
  mkOpts {[ js "tg:-500" := snd (Delegation.group "main" None) ]}
    (Some (mkAdminCommands (fun _ => js "Session reset.")
             (fun _ => js "Memory reset.") (fun _ => js "Restarted.")
             (js "Rebuilt."))).

Definition example_ctx (sender : Z) (c : Content) : Ctx :=
  mkCtx (Some (mkUser sender (js "Dana") None))
        (mkChat (-500) (js "group") (Some (js "Family")))
        (mkMessage 77 1700000000 c None)
        (Some (js "Andy_Bot")).

(** [/ping] from a user outside the allowlist. *)
Definition ping_from_stranger : Ctx :=
  example_ctx 2002 (Text (js "/ping") None).

(** A text of the allowed user that mentions the bot by its username. *)
Definition mention_text : jsstring := js "hey @andy_bot what is up".

Definition mention_from_owner : Ctx :=
  example_ctx 1001
    (Text mention_text (Some [mkEntity (js "mention") 4 9])).

(** A text of the allowed user that starts with a slash, is no command of
    the bot, and mentions the bot. *)
Definition slash_text : jsstring := js "/ask @andy_bot what is up".

Definition slash_mention_from_owner : Ctx :=
  example_ctx 1001
    (Text slash_text (Some [mkEntity (js "mention") 5 9])).

Definition connected : Channel := mkChannel (Some (mkApi [] [])).
Definition not_connected : Channel := mkChannel None.

(** A text of 9000 code units. *)
Definition long_text : jsstring := replicate (Z.to_nat 9000) 97%N.

End Telegram.

(** ** The rest of the channel ([src/channels/telegram.ts]) *)

Module TelegramChannel.

Import Telegram.

(** [ownsJid(jid)] *)
Definition ownsJid (jid : jsstring) : bool := startsWith jid (js "tg:").

(** [isConnected()] *)
Definition isConnected (c : Channel) : bool :=
  match bot c with Some _ => true | None => false end.

(** [disconnect()]: the bot is stopped and dropped; without a bot nothing
    happens. *)
Definition disconnect (c : Channel) : Channel * list Effect :=
  match bot c with
  | Some _ => (mkChannel None, [Log (js "info") (js "Telegram bot stopped")])
  | None => (c, [])
  end.

(** [await this.bot.api.sendChatAction(chat, action)]: a call of the Bot
    API that is no message; it takes the next outcome of the API. *)
Definition api_sendChatAction (a : Api) (chat action : jsstring) : Api * bool :=
  (mkApi (sent a) (tail (outcomes a)),
   match outcomes a with [] => true | ok :: _ => ok end).

(** [setTyping(jid, isTyping)]: the channel afterwards, the chat actions
    asked of the API, what was logged, and how the promise ends. *)
Definition setTyping (c : Channel) (jid : jsstring) (isTyping : bool)
    : Channel * list (jsstring * jsstring) * list Effect * Completion :=
  match bot c with
  | None => (c, [], [], Returned)
  | Some a =>
      if isTyping then
        let numericId := strip_prefix (js "tg:") jid in
        let '(a', ok) := api_sendChatAction a numericId (js "typing") in
        (mkChannel (Some a'), [(numericId, js "typing")],
         if ok then []
         else [Log (js "debug") (js "Failed to send Telegram typing indicator")],
         Returned)
      else (c, [], [], Returned)
  end.

(** The calls to [onChatMetadata] and [onMessage] among the effects, in
    order. *)
Definition callbacks (effects : list Effect) : list Effect :=
  filter (fun e => is_callback e = true) effects.

(** How many of [n] calls in a row are made when the calls end as
    [outcomes] says: all of them, or the ones up to the first rejected
    call, that one included. *)
Fixpoint attempts (outcomes : list bool) (n : nat) {struct n} : nat :=
  match n with
  | O => O
  | S n' =>
      match outcomes with
      | [] => n
      | true :: outcomes' => S (attempts outcomes' n')
      | false :: _ => 1%nat
      end
  end.

(** One of the first [n] calls is rejected. *)
Definition rejected_within (outcomes : list bool) (n : nat) : bool :=
  existsb negb (take n outcomes).

End TelegramChannel.

(** ** Counting in the delegation pool *)

Module PoolCount.

Import Pool.

(** The [trackDelegation] calls of a trace whose [fn] threw before it
    handed back a promise. *)
Definition is_sync_throw (e : Event) : bool :=
  match e with Track ThrowsSync => true | _ => false end.

Definition sync_throws (tr : list Event) : nat :=
  length (filter (fun e => is_sync_throw e = true) tr).

(** The state of the counter with [k] increments that no callback will
    undo. *)
Record Leaked (k : nat) (r : Runner) : Prop := mkLeaked {
  leaked_pending : NoDup (pending r);
  leaked_fresh : forall p, p ∈ pending r -> (p < fresh r)%nat;
  leaked_count :
    activeDelegations r = Z.of_nat (length (pending r)) + Z.of_nat k
}.

(** One delegation whose [fn] throws, then two that run and settle. *)
Definition throw_then_two : list Event :=
  [Track ThrowsSync; Track ReturnsPromise; Track ReturnsPromise;
   Settle 1 true; Settle 2 false].

End PoolCount.

(** ** The model of a group ([container/agent-runner/src/index.ts], as the
    plan for the per-agent model config gives it) *)

Module ModelConfig.

#[local] Set Warnings "-register-all".

(** What [JSON.parse] hands back.  The code never looks into a number, a
    boolean or an array; a number is kept as its literal. *)
Inductive Json :=
| JNull
| JBool (b : bool)
| JNumber (literal : jsstring)
| JString (s : jsstring)
| JArray (items : list Json)
| JObject (members : list (jsstring * Json)).

(** The value of [cfg.model]: the access throws on [null], gives the
    member of an object, and is [undefined] on everything else. *)
Inductive Access :=
| AccessThrows
| Undefined
| Value (v : Json).

Fixpoint member (key : jsstring) (members : list (jsstring * Json)) : option Json :=
  match members with
  | [] => None
  | (k, v) :: rest => if bool_decide (k = key) then Some v else member key rest
  end.

Definition get (key : jsstring) (cfg : Json) : Access :=
  match cfg with
  | JNull => AccessThrows
  | JObject members =>
      match member key members with
      | Some v => Value v
      | None => Undefined
      end
  | _ => Undefined
  end.

(** White space and line terminators of the language, which
    [String.prototype.trim] removes: TAB, LF, VT, FF, CR, SP, NBSP, the
    space separators U+1680, U+2000 to U+200A, U+202F, U+205F and U+3000,
    LS, PS and the byte order mark. *)
Definition is_whitespace (c : N) : bool :=
  ((9 <=? c) && (c <=? 13) || (c =? 32) || (c =? 160) || (c =? 5760)
   || (8192 <=? c) && (c <=? 8202) || (c =? 8232) || (c =? 8233)
   || (c =? 8239) || (c =? 8287) || (c =? 12288) || (c =? 65279))%N.

Fixpoint trimStart (s : jsstring) : jsstring :=
  match s with
  | [] => []
  | c :: rest => if is_whitespace c then trimStart rest else s
  end.

Definition trimEnd (s : jsstring) : jsstring :=
  reverse (trimStart (reverse s)).

(** [s.trim()] *)
Definition trim (s : jsstring) : jsstring := trimEnd (trimStart s).

(** [/workspace/group/config.json] as the code meets it: [existsSync] is
    false, [readFileSync] throws, or the file is read. *)
Inductive ConfigFile :=
| Missing
| Unreadable (message : jsstring)
| Content (raw : jsstring).

Definition warning_line (message : jsstring) : jsstring :=
  js "Warning: failed to read config.json, using default model: " ++ message.

Definition using_line (model : jsstring) : jsstring :=
  js "Using model from config.json: " ++ model.

Section WithParser.

(** [JSON.parse]: the value, or the message of the [SyntaxError]. *)
Variable JSON_parse : jsstring -> Json + jsstring.

(** The message of the [TypeError] that the access [cfg.model] throws on
    [null]. *)
Variable null_access_message : jsstring.

(** The block of [main()] that reads the model of the group: the value of
    [groupModel] ([undefined] is [None]) and the lines it logs. *)
Definition readGroupModel (file : ConfigFile) : option jsstring * list jsstring :=
  match file with
  | Missing => (None, [])
  | Unreadable message => (None, [warning_line message])
  | Content raw =>
      match JSON_parse raw with
      | inr message => (None, [warning_line message])
      | inl cfg =>
          match get (js "model") cfg with
          | AccessThrows => (None, [warning_line null_access_message])
          | Value (JString model) =>
              if truthy (trim model)
              then (Some (trim model), [using_line (trim model)])
              else (None, [])
          | _ => (None, [])
          end
      end
  end.

End WithParser.

(** A parser that finds the object [{ model: "  claude-opus-4-6 \n" }]
    in every file, for the examples. *)
Definition example_parse (raw : jsstring) : Json + jsstring :=
  inl (JObject [(js "comment", JNull);
                (js "model", JString (js "  claude-opus-4-6 " ++ [10%N]))]).

End ModelConfig.

(** * Properties *)

(** ** JavaScript strings *)

Module JSFacts.

Lemma truthy_app_l (a b : jsstring) : truthy a = true -> truthy (a ++ b) = true.
Proof. destruct a; simpl; congruence. Qed.

Lemma join_truthy sep (l : list jsstring) :
  l <> [] -> Forall (fun s => truthy s = true) l -> truthy (join sep l) = true.
Proof.
  intros Hne Hall. destruct l as [|x rest]; [congruence|].
  inversion Hall as [|? ? Hx _]; subst.
  destruct rest; simpl; [exact Hx|].
  apply truthy_app_l, Hx.
Qed.

End JSFacts.

(** ** The delegation pool *)

Module PoolFacts.

Import Pool.

Lemma init_inv : Inv init.
Proof.
  split; simpl.
  - constructor.
  - constructor.
  - intros p Hp. inversion Hp.
  - intros p. split; [lia|]. intros [H|H]; inversion H.
  - reflexivity.
Qed.

Lemma track_inv r : Inv r -> Inv (trackDelegation ReturnsPromise r).
Proof.
  intros [Hp Hr Hd Hf Hc]. split; simpl.
  - constructor; [|exact Hp].
    intros Hin. assert (fresh r < fresh r)%nat by (apply Hf; auto). lia.
  - exact Hr.
  - intros p Hin. apply elem_of_cons in Hin as [->|Hin]; [|auto].
    intros Hin. assert (fresh r < fresh r)%nat by (apply Hf; auto). lia.
  - intros p. rewrite elem_of_cons. split.
    + intros Hlt. destruct (decide (p = fresh r)) as [->|Hne]; [auto|].
      assert (p < fresh r)%nat as Hlt' by lia.
      apply Hf in Hlt' as [?|?]; auto.
    + intros [[->|Hin]|Hin]; [lia| |];
        (assert (p < fresh r)%nat by (apply Hf; auto); lia).
  - rewrite Hc. lia.
Qed.

Lemma filter_ne_id (p : nat) (l : list nat) :
  p ∉ l -> filter (fun q => q <> p) l = l.
Proof.
  induction l as [|x l IH]; intros Hp; [reflexivity|].
  apply not_elem_of_cons in Hp as [Hne Hp].
  rewrite filter_cons, decide_True by auto. f_equal. auto.
Qed.

Lemma length_filter_remove (p : nat) (l : list nat) :
  NoDup l -> p ∈ l ->
  length l = S (length (filter (fun q => q <> p) l)).
Proof.
  induction 1 as [|x l Hx Hnd IH]; intros Hin; [inversion Hin|].
  rewrite filter_cons. apply elem_of_cons in Hin as [->|Hin].
  - rewrite decide_False by auto. simpl. f_equal.
    rewrite filter_ne_id by exact Hx. reflexivity.
  - rewrite decide_True by (intros ->; contradiction).
    simpl. f_equal. auto.
Qed.

Lemma settle_inv p r : Inv r -> Inv (settle p r).
Proof.
  intros [Hp Hr Hd Hf Hc]. unfold settle. case_bool_decide as Hin.
  2: { split; assumption. }
  split; simpl.
  - apply NoDup_filter, Hp.
  - constructor; [apply Hd, Hin | exact Hr].
  - intros q Hq. apply list_elem_of_filter in Hq as [Hne Hq].
    rewrite elem_of_cons. intros [?|?]; [contradiction|]. eapply Hd; eauto.
  - intros q. rewrite Hf, list_elem_of_filter, elem_of_cons.
    destruct (decide (q = p)) as [->|Hne]; [|tauto].
    split; intros _; [right; left; reflexivity | left; exact Hin].
  - rewrite Hc. rewrite (length_filter_remove p (pending r)) by assumption. lia.
Qed.

Lemma run_inv tr : forall r,
  promise_fns tr = true -> Inv r -> Inv (run r tr).
Proof.
  induction tr as [|e tr IH]; intros r Hfns Hinv; [exact Hinv|].
  simpl in Hfns. apply andb_true_iff in Hfns as [He Hfns].
  simpl. apply IH; [exact Hfns|].
  destruct e as [[|]|p ok]; simpl; [apply track_inv, Hinv|discriminate|apply settle_inv, Hinv].
Qed.

Lemma settle_pending p r :
  p ∈ pending r ->
  settle p r =
  mkRunner (activeDelegations r - 1) (filter (fun q => q <> p) (pending r))
           (p :: released r) (fresh r).
Proof. intros Hin. unfold settle. rewrite bool_decide_eq_true_2 by exact Hin. reflexivity. Qed.

Lemma settle_count p r :
  activeDelegations r - 1 <= activeDelegations (settle p r) <= activeDelegations r.
Proof. unfold settle. case_bool_decide; simpl; lia. Qed.

Lemma run_guarded tr : forall r,
  guarded r tr = true ->
  activeDelegations r <= MAX_DELEGATION_CONTAINERS ->
  activeDelegations (run r tr) <= MAX_DELEGATION_CONTAINERS.
Proof.
  induction tr as [|e tr IH]; intros r Hg Hle; [exact Hle|].
  simpl in Hg. apply andb_true_iff in Hg as [He Hg].
  simpl. apply IH; [exact Hg|].
  destruct e as [b|p ok]; simpl.
  - unfold canDelegate in He. apply Z.ltb_lt in He.
    destruct b; simpl; lia.
  - pose proof (settle_count p r). lia.
Qed.

End PoolFacts.

(** C2, amended.  For every sequence of [trackDelegation] calls whose [fn]
    hands back a promise, and of settlements of those promises: each
    promise is pending or released, never both and never twice; settling a
    pending promise, by fulfilment or by rejection, runs the decrement
    once and a later settlement of the same promise runs nothing;
    [activeDelegations] is the number of pending promises and so never
    negative; and it stays at or below [MAX_DELEGATION_CONTAINERS] when
    every [trackDelegation] is called while [canDelegate()] holds. *)
Theorem trackDelegation_release_once (tr : list Pool.Event) :
  Pool.promise_fns tr = true ->
  let r := Pool.run Pool.init tr in
  Pool.Inv r /\
  0 <= Pool.activeDelegations r /\
  (forall p ok, p ∈ Pool.pending r ->
     let r' := Pool.step r (Pool.Settle p ok) in
     Pool.activeDelegations r' = Pool.activeDelegations r - 1 /\
     p ∈ Pool.released r' /\ (p ∉ Pool.pending r') /\
     (forall ok', Pool.step r' (Pool.Settle p ok') = r')) /\
  (Pool.guarded Pool.init tr = true ->
     Pool.activeDelegations r <= Pool.MAX_DELEGATION_CONTAINERS).
Proof.
  intros Hfns r.
  assert (Pool.Inv r) as Hinv by (apply PoolFacts.run_inv; [exact Hfns | apply PoolFacts.init_inv]).
  split; [exact Hinv|]. split; [rewrite (Pool.inv_count r Hinv); lia|]. split.
  - intros p ok Hin r'. subst r'. simpl.
    rewrite (PoolFacts.settle_pending p r Hin). simpl.
    assert (p ∉ filter (fun q => q <> p) (Pool.pending r)) as Hout.
    { intros Hf. apply list_elem_of_filter in Hf as [Hne _]. congruence. }
    repeat split; [apply elem_of_cons; auto | exact Hout |].
    intros ok'. unfold Pool.settle. simpl.
    rewrite bool_decide_eq_false_2 by exact Hout. reflexivity.
  - intros Hg. apply PoolFacts.run_guarded; [exact Hg|].
    unfold Pool.MAX_DELEGATION_CONTAINERS. simpl. lia.
Qed.

Lemma trackDelegation_release_once_witness :
  Pool.promise_fns Pool.three_guarded = true /\
  Pool.guarded Pool.init Pool.three_guarded = true /\
  Pool.activeDelegations (Pool.run Pool.init Pool.three_guarded)
    <= Pool.MAX_DELEGATION_CONTAINERS.
Proof.
  split; [reflexivity|]. split; [reflexivity|].
  apply (trackDelegation_release_once Pool.three_guarded); reflexivity.
Defined.

(** C2 as it is stated fails: four [trackDelegation] calls in a row, each
    with an [fn] that hands back a promise, take [activeDelegations] to 4,
    above [MAX_DELEGATION_CONTAINERS]; the fourth call is the one made
    while [canDelegate()] is false. *)
Lemma four_tracks_exceed_the_limit :
  Pool.promise_fns Pool.four_tracks = true /\
  Pool.guarded Pool.init Pool.four_tracks = false /\
  Pool.activeDelegations (Pool.run Pool.init Pool.four_tracks) = 4 /\
  ~ (Pool.activeDelegations (Pool.run Pool.init Pool.four_tracks)
       <= Pool.MAX_DELEGATION_CONTAINERS).
Proof.
  split; [reflexivity|]. split; [reflexivity|]. split; [reflexivity|].
  vm_compute. intros H. apply H. reflexivity.
Qed.

(** ** The [delegate] case *)

Module DelegationFacts.

Import Delegation.

(** The lookup decides alone: a registered target is dispatched, whatever
    the source group and whatever the delegation counter. *)
Lemma delegate_registered h sourceGroup task target :
  find_target (registeredGroups h) (targetGroup task) = Some target ->
  processTaskIpc_delegate h sourceGroup task =
  (h, [HandleDelegation sourceGroup target (requestId task) (prompt task)
         (timeoutSeconds task)]).
Proof. intros H. unfold processTaskIpc_delegate. rewrite H. reflexivity. Qed.

Lemma delegate_unregistered h sourceGroup task :
  find_target (registeredGroups h) (targetGroup task) = None ->
  processTaskIpc_delegate h sourceGroup task =
  (h, [WriteIpcResult sourceGroup (requestId task)
         (mkOutcome error None (Some (js "Unknown group")) None)]).
Proof. intros H. unfold processTaskIpc_delegate. rewrite H. reflexivity. Qed.

Lemma code_decision_registered h sourceGroup task :
  code_decision h sourceGroup task =
  match find_target (registeredGroups h) (targetGroup task) with
  | Some _ => Allow
  | None => UnknownGroup
  end.
Proof.
  unfold code_decision, processTaskIpc_delegate.
  destruct (find_target _ _); reflexivity.
Qed.

(** Where the table allows or reports an unknown group, the code does
    the same; the two differ only where the table denies. *)
Lemma code_agrees_unless_denied main h sourceGroup task :
  table_decision main (registeredGroups h) sourceGroup (targetGroup task) <> Deny ->
  code_decision h sourceGroup task =
  table_decision main (registeredGroups h) sourceGroup (targetGroup task).
Proof.
  rewrite code_decision_registered. unfold table_decision.
  destruct (find_target _ _); [|reflexivity].
  repeat case_bool_decide; congruence.
Qed.

End DelegationFacts.

(** C1.  The [delegate] case at the limit: on a host with three tracked
    delegations running, [canDelegate()] is false, and a request for a
    registered target is still handed to [handleDelegation]; no outcome,
    busy or other, is written for it. *)
Theorem delegate_at_limit_is_dispatched :
  Pool.activeDelegations (Delegation.runner Delegation.busy_host)
    = Pool.MAX_DELEGATION_CONTAINERS /\
  Pool.canDelegate (Delegation.runner Delegation.busy_host) = false /\
  Delegation.processTaskIpc_delegate Delegation.busy_host (js "main")
    (Delegation.example_task "gmail-reader") =
  (Delegation.busy_host,
   [Delegation.HandleDelegation (js "main") (Delegation.target_of "gmail-reader")
      (js "1700000000000-abc123") (js "list unread senders") 60]).
Proof. repeat split. Qed.

(** C4.  The code against the table at the rows that deny: a group that
    is not the main one and lists the main folder in [allowDelegation],
    delegating to the main group, and a group delegating to a folder
    outside its [allowDelegation]; the table denies both and the code
    dispatches both.  Main to any group, a group to itself, and an
    unregistered folder come out as in the table. *)
Theorem delegate_decision_at_denied_rows :
  let groups := Delegation.example_groups in
  let h := Delegation.idle_host in
  (Delegation.table_decision (js "main") groups (js "escalate") (js "main")
     = Delegation.Deny /\
   Delegation.code_decision h (js "escalate") (Delegation.example_task "main")
     = Delegation.Allow) /\
  (Delegation.table_decision (js "main") groups (js "research") (js "finance")
     = Delegation.Deny /\
   Delegation.code_decision h (js "research") (Delegation.example_task "finance")
     = Delegation.Allow) /\
  (Delegation.table_decision (js "main") groups (js "research") (js "browser")
     = Delegation.Allow /\
   Delegation.code_decision h (js "research") (Delegation.example_task "browser")
     = Delegation.Allow) /\
  (Delegation.table_decision (js "main") groups (js "main") (js "finance")
     = Delegation.Allow /\
   Delegation.code_decision h (js "main") (Delegation.example_task "finance")
     = Delegation.Allow) /\
  (Delegation.table_decision (js "main") groups (js "research") (js "research")
     = Delegation.Allow /\
   Delegation.code_decision h (js "research") (Delegation.example_task "research")
     = Delegation.Allow) /\
  (Delegation.table_decision (js "main") groups (js "research") (js "nowhere")
     = Delegation.UnknownGroup /\
   Delegation.code_decision h (js "research") (Delegation.example_task "nowhere")
     = Delegation.UnknownGroup).
Proof. vm_compute. repeat split. Qed.

(** C6.  The [delegate] case, by what the authorization table says of the
    request.  A request for a folder that is not registered gets one error
    outcome, "Unknown group", and no session.  A request that the table
    denies is treated as one that it allows: it is handed to
    [handleDelegation], so a session is spawned for the target, and no
    error outcome is written.  The host, with its delegation counter, is
    as before in every case.  So it goes for [research], whose
    [allowDelegation] is [browser], delegating to [finance] on a host
    with no delegation running. *)
Theorem denied_delegate_is_dispatched :
  (forall (main : jsstring) (h : Delegation.Host) (sourceGroup : jsstring)
          (task : Delegation.DelegateTask),
     fst (Delegation.processTaskIpc_delegate h sourceGroup task) = h /\
     match Delegation.table_decision main (Delegation.registeredGroups h)
             sourceGroup (Delegation.targetGroup task) with
     | Delegation.UnknownGroup =>
         snd (Delegation.processTaskIpc_delegate h sourceGroup task) =
         [Delegation.WriteIpcResult sourceGroup (Delegation.requestId task)
            (Delegation.mkOutcome Delegation.error None
               (Some (js "Unknown group")) None)]
     | Delegation.Allow | Delegation.Deny =>
         exists target,
           Delegation.folder target = Delegation.targetGroup task /\
           snd (Delegation.processTaskIpc_delegate h sourceGroup task) =
           [Delegation.HandleDelegation sourceGroup target
              (Delegation.requestId task) (Delegation.prompt task)
              (Delegation.timeoutSeconds task)]
     end) /\
  Delegation.allowDelegation_of Delegation.example_groups (js "research")
    = [js "browser"] /\
  Delegation.table_decision (js "main") Delegation.example_groups
    (js "research") (js "finance") = Delegation.Deny /\
  Pool.activeDelegations (Delegation.runner Delegation.idle_host) = 0 /\
  Delegation.processTaskIpc_delegate Delegation.idle_host (js "research")
    (Delegation.example_task "finance") =
  (Delegation.idle_host,
   [Delegation.HandleDelegation (js "research") (Delegation.target_of "finance")
      (js "1700000000000-abc123") (js "list unread senders") 60]).
Proof.
  split; [|repeat split].
  intros main h sourceGroup task.
  unfold Delegation.table_decision, Delegation.processTaskIpc_delegate.
  destruct (Delegation.find_target _ _) as [target|] eqn:Hfind;
    [|split; reflexivity].
  split; [reflexivity|].
  assert (Delegation.folder target = Delegation.targetGroup task) as Hfolder.
  { unfold Delegation.find_target in Hfind.
    apply List.find_some in Hfind as [_ Hfolder].
    apply bool_decide_eq_true in Hfolder. exact Hfolder. }
  repeat case_bool_decide; exists target; split;
    solve [exact Hfolder | reflexivity].
Qed.

(** ** [handleDelegation] *)

Module HandleDelegationFacts.

Import Delegation.

Lemma path_join_two (d f : jsstring) : path_join [d; f] = d ++ js "/" ++ f.
Proof. reflexivity. Qed.

(** The two outcome files of a request are different files. *)
Lemma resultFile_errorFile DATA_DIR sourceGroup requestId :
  resultFile DATA_DIR sourceGroup requestId <> errorFile DATA_DIR sourceGroup requestId.
Proof.
  unfold resultFile, errorFile. rewrite !path_join_two.
  intros H. apply app_inv_head in H. simpl in H. discriminate H.
Qed.

(** The name of an outcome file carries the request id: the outcome
    files of a request are outcome files of no other request of the
    source group. *)
Lemma outcome_files_of_other DATA_DIR sourceGroup requestId other :
  other <> requestId ->
  forall mine theirs,
    mine ∈ [resultFile DATA_DIR sourceGroup requestId;
            errorFile DATA_DIR sourceGroup requestId] ->
    theirs ∈ [resultFile DATA_DIR sourceGroup other;
              errorFile DATA_DIR sourceGroup other] ->
    mine <> theirs.
Proof.
  intros Hother mine theirs Hmine Htheirs.
  unfold resultFile, errorFile in Hmine, Htheirs.
  rewrite !path_join_two in Hmine, Htheirs.
  apply elem_of_cons in Hmine as [->|Hmine];
    [|apply list_elem_of_singleton in Hmine as ->];
    (apply elem_of_cons in Htheirs as [->|Htheirs];
     [|apply list_elem_of_singleton in Htheirs as ->]);
    intros H; apply app_inv_head in H.
  - apply app_inv_head in H. apply app_inv_head in H. apply app_inv_tail in H.
    congruence.
  - simpl in H. discriminate H.
  - simpl in H. discriminate H.
  - apply app_inv_head in H. apply app_inv_head in H. apply app_inv_tail in H.
    congruence.
Qed.

Lemma writeFileSync_ok fs path data :
  path ∉ faulty fs ->
  writeFileSync fs path data = inl (mkFS (<[path := data]> (files fs)) (faulty fs)).
Proof.
  intros H. unfold writeFileSync. rewrite bool_decide_eq_false_2 by exact H.
  reflexivity.
Qed.

(** Whatever the file system does, a call writes at most one file. *)
Lemma handleDelegation_at_most_one DATA_DIR fs sourceGroup target requestId
    prompt timeoutSeconds run :
  let fs' := fst (handleDelegation DATA_DIR fs sourceGroup target requestId
                    prompt timeoutSeconds run) in
  fs' = fs \/ exists path o, files fs' = <[path := o]> (files fs).
Proof.
  unfold handleDelegation, try_block, writeFileSync.
  destruct run; repeat case_bool_decide; simpl; eauto.
Qed.

(** The callback buffers the fragments, in the order they arrive. *)
Lemma on_output_fragments streamed : forall results,
  foldl on_output results streamed = results ++ fragments_of streamed.
Proof.
  induction streamed as [|out streamed IH]; intros results; simpl.
  - rewrite app_nil_r. reflexivity.
  - rewrite IH. unfold on_output, fragments_of. simpl.
    destruct (result out) as [s|]; [|reflexivity].
    destruct (truthy s); [|reflexivity].
    rewrite <- app_assoc. reflexivity.
Qed.

Lemma fragments_truthy streamed :
  Forall (fun s => truthy s = true) (fragments_of streamed).
Proof.
  induction streamed as [|out streamed IH]; [constructor|].
  unfold fragments_of. simpl.
  destruct (result out) as [s|]; [|exact IH].
  destruct (truthy s) eqn:Hs; [|exact IH].
  constructor; assumption.
Qed.

End HandleDelegationFacts.





(** The scenario of the specification: the main group delegates to
    [gmail-reader], whose session streams "Alice" and "Bob". *)
Example handleDelegation_alice_bob :
  Delegation.files
    (fst (Delegation.handleDelegation (js "/data") Delegation.empty_fs
            (js "main") (Delegation.target_of "gmail-reader") (js "r1")
            (js "list unread senders") 60
            (Delegation.Fulfilled
               [Delegation.mkOutput (Some (js "Alice"));
                Delegation.mkOutput None;
                Delegation.mkOutput (Some (js "Bob"))]
               (Delegation.mkOutput None))))
  !! Delegation.resultFile (js "/data") (js "main") (js "r1")
  = Some (Delegation.mkOutcome Delegation.success
            (Some (js "Alice" ++ [10%N; 10%N] ++ js "Bob")) None
            (Some (js "gmail-reader"))).
Proof. vm_compute. reflexivity. Qed.

(** ** The requester's wait *)

Module ResultChannelFacts.

Import Delegation ResultChannel.

Section Wait.

Variable host : nat -> FS -> FS.
Variable requestId : jsstring.
Variable pollIntervalMs : Z.
Variable fs0 : FS.

Local Abbreviation times_from := (ResultChannel.times_from pollIntervalMs).

Lemma times_from_S k n :
  times_from k (S n) = (Z.of_nat k * pollIntervalMs) :: times_from (S k) n.
Proof. reflexivity. Qed.

(** The artifact shows up at the look number [k + d], not before. *)
Lemma wait_loop_found o fs' : forall d remaining k times,
  (d <= remaining)%nat ->
  (forall j, (k <= j < k + d)%nat -> consume requestId (fs_at host j fs0) = None) ->
  consume requestId (fs_at host (k + d) fs0) = Some (o, fs') ->
  wait_loop host requestId pollIntervalMs remaining k (fs_at host k fs0) times =
  mkWait (Delivered o) fs' (times ++ times_from k (S d)).
Proof.
  induction d as [|d IH]; intros remaining k times Hle Hnone Hsome.
  - rewrite Nat.add_0_r in Hsome.
    destruct remaining; simpl; rewrite Hsome; reflexivity.
  - destruct remaining as [|remaining]; [lia|].
    simpl. rewrite (Hnone k) by lia.
    change (host k (fs_at host k fs0)) with (fs_at host (S k) fs0).
    rewrite IH.
    + rewrite (times_from_S k (S d)). rewrite <- app_assoc. reflexivity.
    + lia.
    + intros j Hj. apply Hnone. lia.
    + replace (S k + d)%nat with (k + S d)%nat by lia. exact Hsome.
Qed.

(** No artifact at any look. *)
Lemma wait_loop_timeout : forall remaining k times,
  (forall j, (k <= j <= k + remaining)%nat ->
             consume requestId (fs_at host j fs0) = None) ->
  wait_loop host requestId pollIntervalMs remaining k (fs_at host k fs0) times =
  mkWait TimedOut (fs_at host (k + remaining) fs0)
         (times ++ times_from k (S remaining)).
Proof.
  induction remaining as [|remaining IH]; intros k times Hnone.
  - simpl. rewrite (Hnone k) by lia. rewrite Nat.add_0_r. reflexivity.
  - simpl. rewrite (Hnone k) by lia.
    change (host k (fs_at host k fs0)) with (fs_at host (S k) fs0).
    rewrite IH.
    + rewrite (times_from_S k (S remaining)). rewrite <- app_assoc.
      replace (S k + remaining)%nat with (k + S remaining)%nat by lia.
      reflexivity.
    + intros j Hj. apply Hnone. lia.
Qed.

End Wait.

(** What one look does. *)
Lemma consume_spec requestId fs :
  match consume requestId fs with
  | Some (o, fs') =>
      exists path,
        (path = resultPath requestId \/
         path = errorPath requestId /\ files fs !! resultPath requestId = None) /\
        files fs !! path = Some o /\
        files fs' = delete path (files fs) /\
        files fs' !! path = None
  | None =>
      files fs !! resultPath requestId = None /\
      files fs !! errorPath requestId = None
  end.
Proof.
  unfold consume.
  destruct (files fs !! resultPath requestId) as [o|] eqn:Hres.
  - exists (resultPath requestId). simpl.
    split; [left; reflexivity|]. split; [exact Hres|].
    split; [reflexivity | apply lookup_delete_eq].
  - destruct (files fs !! errorPath requestId) as [o|] eqn:Herr.
    + exists (errorPath requestId). simpl.
      split; [right; split; reflexivity|]. split; [exact Herr|].
      split; [reflexivity | apply lookup_delete_eq].
    + split; reflexivity.
Qed.

End ResultChannelFacts.

(** C7.  The wait of the requester, for every request id, poll interval,
    timeout and host.  The result location is looked at at the multiples
    of the poll interval up to the timeout.  At the first look that finds
    the success or the error artifact, the artifact is read and deleted and
    its outcome is returned, with no later look; when no look up to the
    timeout finds an artifact the wait returns the timeout error and leaves
    the files as the host left them. *)
Theorem awaitResult_polls_and_consumes (host : nat -> Delegation.FS -> Delegation.FS)
    (requestId : jsstring) (pollIntervalMs timeoutMs : Z) (fs : Delegation.FS) :
  let looks := Z.to_nat (timeoutMs / pollIntervalMs) in
  let w := ResultChannel.awaitResult host requestId pollIntervalMs timeoutMs fs in
  let at_look k := ResultChannel.fs_at host k fs in
  let times n := (fun j => Z.of_nat j * pollIntervalMs) <$> seq 0 n in
  (forall k o fs',
     (k <= looks)%nat ->
     (forall j, (j < k)%nat -> ResultChannel.consume requestId (at_look j) = None) ->
     ResultChannel.consume requestId (at_look k) = Some (o, fs') ->
     ResultChannel.returned w = ResultChannel.Delivered o /\
     ResultChannel.fs_after w = fs' /\
     ResultChannel.poll_times w = times (S k) /\
     exists path,
       (path = ResultChannel.resultPath requestId \/
        path = ResultChannel.errorPath requestId) /\
       Delegation.files (at_look k) !! path = Some o /\
       Delegation.files (ResultChannel.fs_after w) !! path = None) /\
  ((forall k, (k <= looks)%nat ->
      Delegation.files (at_look k) !! ResultChannel.resultPath requestId = None /\
      Delegation.files (at_look k) !! ResultChannel.errorPath requestId = None) ->
   ResultChannel.returned w = ResultChannel.TimedOut /\
   ResultChannel.fs_after w = at_look looks /\
   ResultChannel.poll_times w = times (S looks)).
Proof.
  intros looks w at_look times. split.
  - intros k o fs' Hk Hnone Hsome.
    assert (w = ResultChannel.mkWait (ResultChannel.Delivered o) fs' (times (S k))) as ->.
    { subst w. unfold ResultChannel.awaitResult.
      change fs with (ResultChannel.fs_at host 0 fs) at 1.
      rewrite (ResultChannelFacts.wait_loop_found host requestId pollIntervalMs
                 fs o fs' k); [reflexivity | exact Hk | | exact Hsome].
      intros j Hj. apply Hnone. lia. }
    simpl. repeat split.
    pose proof (ResultChannelFacts.consume_spec requestId (at_look k)) as Hspec.
    rewrite Hsome in Hspec. destruct Hspec as (path & Hpath & Hread & _ & Hgone).
    exists path. repeat split; [|exact Hread|exact Hgone].
    destruct Hpath as [->|[-> _]]; auto.
  - intros Hnone.
    assert (w = ResultChannel.mkWait ResultChannel.TimedOut (at_look looks)
                  (times (S looks))) as ->; [|repeat split].
    subst w. unfold ResultChannel.awaitResult.
    change fs with (ResultChannel.fs_at host 0 fs) at 1.
    rewrite ResultChannelFacts.wait_loop_timeout; [reflexivity|].
    intros j Hj. unfold ResultChannel.consume.
    destruct (Hnone j ltac:(lia)) as [Hres Herr]. subst at_look. simpl in *.
    rewrite Hres, Herr. reflexivity.
Qed.

(** The host writes the outcome during the second sleep: the third look,
    4 s after the start, finds it, and the artifact is gone afterwards. *)
Example delegate_wait_delivers :
  let w := ResultChannel.delegate_wait
             (ResultChannel.example_host (js "r1") ResultChannel.example_outcome)
             (js "r1") (Some 60) Delegation.empty_fs in
  ResultChannel.returned w = ResultChannel.Delivered ResultChannel.example_outcome /\
  ResultChannel.poll_times w = [0; 2000; 4000] /\
  Delegation.files (ResultChannel.fs_after w) !! ResultChannel.resultPath (js "r1") = None.
Proof. vm_compute. repeat split. Qed.

(** Nothing is ever written: with a timeout of 6 s the wait looks four
    times and gives up. *)
Example delegate_wait_times_out :
  let w := ResultChannel.delegate_wait (fun _ fs => fs) (js "r1") (Some 6)
             Delegation.empty_fs in
  ResultChannel.returned w = ResultChannel.TimedOut /\
  ResultChannel.poll_times w = [0; 2000; 4000; 6000].
Proof. vm_compute. repeat split. Qed.

(** ** [sendMessage] *)

Module SendMessageFacts.

Lemma MAX_LENGTH_pos : (0 < Telegram.MAX_LENGTH)%nat.
Proof. unfold Telegram.MAX_LENGTH. lia. Qed.

Lemma slice_chunk (text : jsstring) i :
  slice text i (i + Telegram.MAX_LENGTH) = take Telegram.MAX_LENGTH (drop i text).
Proof.
  unfold slice. replace (i + Telegram.MAX_LENGTH - i)%nat with Telegram.MAX_LENGTH by lia.
  reflexivity.
Qed.

Lemma chunks_from_S fuel (text : jsstring) i :
  Telegram.chunks_from (S fuel) text i =
  if (i <? length text)%nat
  then slice text i (i + Telegram.MAX_LENGTH)
       :: Telegram.chunks_from fuel text (i + Telegram.MAX_LENGTH)
  else [].
Proof. reflexivity. Qed.

Lemma chunks_from_done fuel (text : jsstring) i :
  (length text <= i)%nat -> Telegram.chunks_from fuel text i = [].
Proof.
  intros H. assert ((i <? length text)%nat = false) as E by (apply Nat.ltb_ge; lia).
  destruct fuel; unfold Telegram.chunks_from; rewrite E; reflexivity.
Qed.

Lemma send_chunks_S fuel a numericId (text : jsstring) i :
  Telegram.send_chunks (S fuel) a numericId text i =
  if (i <? length text)%nat then
    let '(a', ok) :=
      Telegram.api_sendMessage a numericId (slice text i (i + Telegram.MAX_LENGTH)) in
    if ok then Telegram.send_chunks fuel a' numericId text (i + Telegram.MAX_LENGTH)
    else Some (a', false)
  else Some (a, true).
Proof. reflexivity. Qed.

Lemma send_chunks_done fuel a numericId (text : jsstring) i :
  (length text <= i)%nat ->
  Telegram.send_chunks fuel a numericId text i = Some (a, true).
Proof.
  intros H. assert ((i <? length text)%nat = false) as E by (apply Nat.ltb_ge; lia).
  destruct fuel; unfold Telegram.send_chunks; rewrite E; reflexivity.
Qed.

(** The pieces, put end to end, are the text from [i] on. *)
Lemma chunks_from_concat (text : jsstring) : forall fuel i,
  (length text - i <= fuel)%nat ->
  concat (Telegram.chunks_from fuel text i) = drop i text.
Proof.
  induction fuel as [|fuel IH]; intros i Hfuel.
  - rewrite chunks_from_done by lia. rewrite drop_ge by lia. reflexivity.
  - rewrite chunks_from_S. destruct (i <? length text)%nat eqn:E.
    + apply Nat.ltb_lt in E. pose proof MAX_LENGTH_pos.
      simpl. rewrite IH by lia. rewrite slice_chunk.
      rewrite <- (drop_drop text Telegram.MAX_LENGTH i).
      apply take_drop.
    + apply Nat.ltb_ge in E. rewrite drop_ge by lia. reflexivity.
Qed.

(** No piece is longer than [MAX_LENGTH], and none is empty. *)
Lemma chunks_from_size (text : jsstring) : forall fuel i,
  Forall (fun c : jsstring => (1 <= length c <= Telegram.MAX_LENGTH)%nat)
         (Telegram.chunks_from fuel text i).
Proof.
  induction fuel as [|fuel IH]; intros i.
  - unfold Telegram.chunks_from. destruct (i <? length text)%nat; constructor.
  - rewrite chunks_from_S. destruct (i <? length text)%nat eqn:E; [|constructor].
    apply Nat.ltb_lt in E. pose proof MAX_LENGTH_pos.
    constructor; [|apply IH].
    rewrite slice_chunk, length_take, length_drop. lia.
Qed.

(** Whatever the API does, the loop comes to an end within
    [length text - i] iterations, and the calls it made are the first
    pieces, in order. *)
Lemma send_chunks_prefix numericId (text : jsstring) : forall fuel a i,
  (length text - i <= fuel)%nat ->
  exists a' ok k,
    Telegram.send_chunks fuel a numericId text i = Some (a', ok) /\
    Telegram.sent a' =
      Telegram.sent a ++ take k (pair numericId <$> Telegram.chunks_from fuel text i).
Proof.
  induction fuel as [|fuel IH]; intros a i Hfuel.
  - rewrite send_chunks_done by lia. exists a, true, 0%nat.
    split; [reflexivity|]. rewrite take_0, app_nil_r. reflexivity.
  - rewrite send_chunks_S, chunks_from_S.
    destruct (i <? length text)%nat eqn:E.
    2: { exists a, true, 0%nat. split; [reflexivity|]. rewrite app_nil_r. reflexivity. }
    apply Nat.ltb_lt in E. pose proof MAX_LENGTH_pos.
    unfold Telegram.api_sendMessage.
    destruct (match Telegram.outcomes a with [] => true | ok :: _ => ok end).
    + edestruct (IH (Telegram.mkApi
                       (Telegram.sent a ++ [(numericId, slice text i (i + Telegram.MAX_LENGTH))])
                       (tail (Telegram.outcomes a))) (i + Telegram.MAX_LENGTH)%nat)
        as (a' & ok & k & Hrun & Hsent); [lia|].
      exists a', ok, (S k). split; [exact Hrun|].
      rewrite Hsent. simpl. rewrite <- app_assoc. reflexivity.
    + eexists _, false, 1%nat. split; [reflexivity|]. simpl. rewrite take_0. reflexivity.
Qed.

(** When every call is fulfilled the loop sends all the pieces. *)
Lemma send_chunks_all numericId (text : jsstring) : forall fuel a i,
  (length text - i <= fuel)%nat ->
  forallb id (Telegram.outcomes a) = true ->
  exists a',
    Telegram.send_chunks fuel a numericId text i = Some (a', true) /\
    Telegram.sent a' =
      Telegram.sent a ++ (pair numericId <$> Telegram.chunks_from fuel text i).
Proof.
  induction fuel as [|fuel IH]; intros a i Hfuel Hok.
  - rewrite send_chunks_done, chunks_from_done by lia. exists a.
    split; [reflexivity|]. rewrite app_nil_r. reflexivity.
  - rewrite send_chunks_S, chunks_from_S.
    destruct (i <? length text)%nat eqn:E.
    2: { exists a. split; [reflexivity|]. rewrite app_nil_r. reflexivity. }
    apply Nat.ltb_lt in E. pose proof MAX_LENGTH_pos.
    unfold Telegram.api_sendMessage.
    assert (match Telegram.outcomes a with [] => true | ok :: _ => ok end = true
            /\ forallb id (tail (Telegram.outcomes a)) = true) as [-> Htail].
    { destruct (Telegram.outcomes a) as [|ok rest]; [split; reflexivity|].
      simpl in Hok. apply andb_true_iff in Hok as [Hhead Hrest].
      split; [exact Hhead | exact Hrest]. }
    edestruct (IH (Telegram.mkApi
                     (Telegram.sent a ++ [(numericId, slice text i (i + Telegram.MAX_LENGTH))])
                     (tail (Telegram.outcomes a))) (i + Telegram.MAX_LENGTH)%nat)
      as (a' & Hrun & Hsent); [lia | exact Htail |].
    exists a'. split; [exact Hrun|].
    rewrite Hsent. simpl. rewrite <- app_assoc. reflexivity.
Qed.

Lemma chunks_concat (text : jsstring) : concat (Telegram.chunks text) = text.
Proof.
  unfold Telegram.chunks. destruct (length text <=? Telegram.MAX_LENGTH)%nat.
  - simpl. apply app_nil_r.
  - rewrite chunks_from_concat by lia. reflexivity.
Qed.

Lemma chunks_size (text : jsstring) :
  Forall (fun c : jsstring => (length c <= Telegram.MAX_LENGTH)%nat) (Telegram.chunks text).
Proof.
  unfold Telegram.chunks. destruct (length text <=? Telegram.MAX_LENGTH)%nat eqn:E.
  - apply Nat.leb_le in E. constructor; [exact E | constructor].
  - eapply Forall_impl; [apply chunks_from_size|]. simpl. intros c Hc. lia.
Qed.

End SendMessageFacts.



(** A text of 9000 code units on a connected channel: three calls, of
    4096, 4096 and 808 code units. *)
Example sendMessage_long_text :
  (fun r => match r with
            | Some (c', _, completion) =>
                (length <$> (snd <$> Telegram.calls_of c'), completion)
            | None => ([], Returned)
            end)
    (Telegram.sendMessage Telegram.connected (js "tg:42") Telegram.long_text)
  = ([4096; 4096; 808]%nat, Returned).
Proof. vm_compute. reflexivity. Qed.

(** The second call is rejected: the third piece is never sent, and the
    call still returns. *)
Example sendMessage_rejected_midway :
  (fun r => match r with
            | Some (c', logs, completion) =>
                (length <$> (snd <$> Telegram.calls_of c'), logs, completion)
            | None => ([], [], Returned)
            end)
    (Telegram.sendMessage
       (Telegram.mkChannel (Some (Telegram.mkApi [] [true; false])))
       (js "tg:42") Telegram.long_text)
  = ([4096; 4096]%nat,
     [Telegram.Log (js "error") (js "Failed to send Telegram message")],
     Returned).
Proof. vm_compute. reflexivity. Qed.

(** ** The handlers *)

Module HandlerFacts.

Section Handlers.

Variable cfg : Telegram.Config.
Variable lib : Telegram.Builtins.
Variable opts : Telegram.TelegramChannelOpts.

(** The allowlist check of the handlers, in words. *)
Lemma blocked_iff ctx :
  Telegram.blocked cfg lib ctx = true <->
  Telegram.TELEGRAM_ALLOWED_USERS cfg <> ∅ /\
  Telegram.userId_of lib ctx ∉ Telegram.TELEGRAM_ALLOWED_USERS cfg.
Proof.
  unfold Telegram.blocked. rewrite andb_true_iff, negb_true_iff, Z.ltb_lt.
  rewrite bool_decide_eq_false.
  assert (0 < Z.of_nat (size (Telegram.TELEGRAM_ALLOWED_USERS cfg))
          <-> Telegram.TELEGRAM_ALLOWED_USERS cfg <> ∅) as ->; [|reflexivity].
  split.
  - intros Hpos Hempty. rewrite Hempty, size_empty in Hpos. lia.
  - intros Hne.
    destruct (decide (size (Telegram.TELEGRAM_ALLOWED_USERS cfg) = 0%nat)) as [E|E]; [|lia].
    apply size_empty_inv, leibniz_equiv in E. contradiction.
Qed.

Lemma adminGuard_blocked ctx :
  Telegram.blocked cfg lib ctx = true ->
  Telegram.adminGuard cfg lib opts ctx = (None, []).
Proof. intros H. unfold Telegram.adminGuard. rewrite H. reflexivity. Qed.

Lemma on_admin_blocked call run ctx :
  Telegram.blocked cfg lib ctx = true ->
  Telegram.on_admin cfg lib opts call run ctx = [].
Proof.
  intros H. unfold Telegram.on_admin. rewrite adminGuard_blocked by exact H.
  reflexivity.
Qed.

Lemma on_rebuild_blocked ctx :
  Telegram.blocked cfg lib ctx = true -> Telegram.on_rebuild cfg lib opts ctx = [].
Proof. intros H. unfold Telegram.on_rebuild. rewrite H. reflexivity. Qed.

Lemma storeNonText_blocked ctx placeholder :
  Telegram.blocked cfg lib ctx = true ->
  Telegram.storeNonText cfg lib opts ctx placeholder = [].
Proof. intros H. unfold Telegram.storeNonText. rewrite H. reflexivity. Qed.

Lemma on_message_text_blocked ctx text entities :
  Telegram.blocked cfg lib ctx = true ->
  Telegram.observable (Telegram.on_message_text cfg lib opts ctx text entities) = [].
Proof.
  intros H. unfold Telegram.on_message_text. rewrite H.
  destruct (startsWith text (js "/")); reflexivity.
Qed.

(** Past the two public commands a blocked sender leaves nothing but
    a line of the log. *)
Lemma handle_blocked_private ctx :
  Telegram.blocked cfg lib ctx = true ->
  Telegram.hasCommand lib (js "chatid") ctx = false ->
  Telegram.hasCommand lib (js "ping") ctx = false ->
  Telegram.observable (Telegram.handle cfg lib opts ctx) = [].
Proof.
  intros H Hchatid Hping. unfold Telegram.handle. rewrite Hchatid, Hping.
  unfold Telegram.on_reset_session, Telegram.on_reset_memory, Telegram.on_restart.
  rewrite !on_admin_blocked, on_rebuild_blocked by exact H.
  repeat match goal with |- context [if ?b then _ else _] => destruct b end;
    try reflexivity.
  destruct (Telegram.content (Telegram.message ctx));
    rewrite ?storeNonText_blocked by exact H; try reflexivity.
  apply on_message_text_blocked, H.
Qed.

(** The mention test of the handler is the mention of the claim. *)
Lemma translate_mention_spec ctx text entities :
  (Telegram.mentions_bot lib ctx text entities /\
   Telegram.TRIGGER_PATTERN_test cfg text = false ->
   Telegram.translate_mention cfg lib ctx text entities =
     js "@" ++ Telegram.ASSISTANT_NAME cfg ++ js " " ++ text) /\
  (~ (Telegram.mentions_bot lib ctx text entities /\
      Telegram.TRIGGER_PATTERN_test cfg text = false) ->
   Telegram.translate_mention cfg lib ctx text entities = text).
Proof.
  unfold Telegram.translate_mention, Telegram.mentions_bot.
  destruct (Telegram.me_username ctx) as [u|]; simpl.
  2: { split; [intros [(? & ? & [=] & _) _] | reflexivity]. }
  destruct (truthy (Telegram.toLowerCase lib u)) eqn:Hu.
  2: { split; [|reflexivity].
       intros [(u' & e & [= <-] & Hne & _) _].
       destruct (Telegram.toLowerCase lib u); [congruence | discriminate]. }
  destruct (existsb _ _) eqn:Hex.
  - apply existsb_exists in Hex as (e & Hin & He).
    unfold Telegram.is_bot_mention in He.
    case_bool_decide as Htype; [|discriminate].
    apply bool_decide_eq_true in He.
    destruct (Telegram.TRIGGER_PATTERN_test cfg text) eqn:Htrig; simpl.
    + split; [intros [_ [=]] | reflexivity].
    + split; [reflexivity|]. intros Hnot. exfalso. apply Hnot.
      split; [|reflexivity]. exists u, e.
      split; [reflexivity|]. split.
      { intros Hnil. rewrite Hnil in Hu. discriminate. }
      split; [apply list_elem_of_In, Hin|]. split; assumption.
  - simpl. split; [|reflexivity].
    intros [(u' & e & [= <-] & _ & Hin & Htype & Heq) _].
    assert (existsb (Telegram.is_bot_mention lib text (Telegram.toLowerCase lib u))
              (default [] entities) = true) as Hyes; [|congruence].
    apply existsb_exists. exists e. split; [apply list_elem_of_In, Hin|].
    unfold Telegram.is_bot_mention.
    rewrite bool_decide_eq_true_2 by exact Htype.
    apply bool_decide_eq_true_2, Heq.
Qed.

End Handlers.

(** Effects that are all log lines hold no call and no reply. *)
Lemma only_logs_no_calls (effects : list Telegram.Effect) :
  Telegram.observable effects = [] ->
  existsb Telegram.is_callback effects = false /\
  existsb Telegram.is_admin effects = false /\
  existsb Telegram.is_reply effects = false.
Proof.
  unfold Telegram.observable.
  induction effects as [|e effects IH]; [intros _; repeat split|].
  rewrite filter_cons. destruct e; simpl; try discriminate.
  exact IH.
Qed.

End HandlerFacts.

(** C9, amended.  When the allowlist is not empty and the id of the sender
    is not in it, an inbound message, text or not, has one of three
    outcomes: it is the public command [/chatid] and is answered by the
    chat id reply; it is the public command [/ping] and is answered by the
    online reply; or nothing happens but a line of the log.  In all three,
    [onMessage] and [onChatMetadata] are not called and no admin command
    runs. *)
Theorem blocked_sender_effects (cfg : Telegram.Config) (lib : Telegram.Builtins)
    (opts : Telegram.TelegramChannelOpts) (ctx : Telegram.Ctx) :
  Telegram.TELEGRAM_ALLOWED_USERS cfg <> ∅ ->
  Telegram.userId_of lib ctx ∉ Telegram.TELEGRAM_ALLOWED_USERS cfg ->
  let effects := Telegram.handle cfg lib opts ctx in
  existsb Telegram.is_callback effects = false /\
  existsb Telegram.is_admin effects = false /\
  (if Telegram.hasCommand lib (js "chatid") ctx
   then effects = Telegram.on_chatid lib ctx
   else if Telegram.hasCommand lib (js "ping") ctx
   then effects = Telegram.on_ping cfg ctx
   else Telegram.observable effects = []).
Proof.
  intros Hnonempty Hout effects.
  assert (Telegram.blocked cfg lib ctx = true) as Hblocked
    by (apply HandlerFacts.blocked_iff; split; assumption).
  pose proof (HandlerFacts.handle_blocked_private cfg lib opts ctx Hblocked) as Hprivate.
  subst effects. unfold Telegram.handle in *.
  destruct (Telegram.hasCommand lib (js "chatid") ctx).
  { repeat split. }
  destruct (Telegram.hasCommand lib (js "ping") ctx).
  { repeat split. }
  specialize (Hprivate eq_refl eq_refl).
  destruct (HandlerFacts.only_logs_no_calls _ Hprivate) as (Hcb & Hadm & _).
  repeat split; assumption.
Qed.

Lemma blocked_sender_effects_witness :
  Telegram.TELEGRAM_ALLOWED_USERS Telegram.example_cfg <> ∅ /\
  (Telegram.userId_of Telegram.example_lib
     (Telegram.example_ctx 2002 (Telegram.Text (js "hello") None))
     ∉ Telegram.TELEGRAM_ALLOWED_USERS Telegram.example_cfg) /\
  existsb Telegram.is_callback
    (Telegram.handle Telegram.example_cfg Telegram.example_lib
       Telegram.example_opts
       (Telegram.example_ctx 2002 (Telegram.Text (js "hello") None))) = false.
Proof.
  assert (Telegram.TELEGRAM_ALLOWED_USERS Telegram.example_cfg <> ∅) as H1.
  { intros H. apply (f_equal size) in H. vm_compute in H. discriminate H. }
  assert (Telegram.userId_of Telegram.example_lib
            (Telegram.example_ctx 2002 (Telegram.Text (js "hello") None))
            ∉ Telegram.TELEGRAM_ALLOWED_USERS Telegram.example_cfg) as H2.
  { intros H. unfold Telegram.example_cfg in H. simpl in H.
    apply elem_of_singleton in H. vm_compute in H. discriminate H. }
  split; [exact H1|]. split; [exact H2|].
  exact (proj1 (blocked_sender_effects Telegram.example_cfg Telegram.example_lib
                  Telegram.example_opts _ H1 H2)).
Defined.

(** C9 as it is stated fails: with the allowlist [{"1001"}], the user 2002
    sends [/ping] and the bot answers. *)
Lemma ping_from_stranger_is_answered :
  Telegram.TELEGRAM_ALLOWED_USERS Telegram.example_cfg <> ∅ /\
  (Telegram.userId_of Telegram.example_lib Telegram.ping_from_stranger
     ∉ Telegram.TELEGRAM_ALLOWED_USERS Telegram.example_cfg) /\
  Telegram.handle Telegram.example_cfg Telegram.example_lib Telegram.example_opts
    Telegram.ping_from_stranger = [Telegram.Reply (js "Andy is online.")] /\
  Telegram.observable
    (Telegram.handle Telegram.example_cfg Telegram.example_lib
       Telegram.example_opts Telegram.ping_from_stranger) <> [].
Proof.
  split.
  { intros H. apply (f_equal size) in H. vm_compute in H. discriminate H. }
  split.
  { intros H. unfold Telegram.example_cfg in H. simpl in H.
    apply elem_of_singleton in H. vm_compute in H. discriminate H. }
  split; [vm_compute; reflexivity|].
  vm_compute. discriminate.
Qed.

(** C10, amended.  For every text message of a sender that passes the
    allowlist, in a registered chat.  A text that starts with "/" is not
    handed to [onMessage].  Any other text is handed to [onMessage] once,
    and its content is "@" + ASSISTANT_NAME + " " + the text when the
    message mentions the bot by its username, case put aside, and the text
    does not match TRIGGER_PATTERN; otherwise the content is the text as
    it came. *)
Theorem mention_translation (cfg : Telegram.Config) (lib : Telegram.Builtins)
    (opts : Telegram.TelegramChannelOpts) (ctx : Telegram.Ctx)
    (text : jsstring) (entities : option (list Telegram.MessageEntity))
    (group : Delegation.RegisteredGroup) :
  Telegram.blocked cfg lib ctx = false ->
  Telegram.registeredGroups opts !! Telegram.chatJid_of lib ctx = Some group ->
  let messages :=
    Telegram.delivered (Telegram.on_message_text cfg lib opts ctx text entities) in
  let translate :=
    Telegram.mentions_bot lib ctx text entities /\
    Telegram.TRIGGER_PATTERN_test cfg text = false in
  (startsWith text (js "/") = true -> messages = []) /\
  (startsWith text (js "/") = false ->
   exists m,
     messages = [m] /\
     (translate ->
      Telegram.nm_content m = js "@" ++ Telegram.ASSISTANT_NAME cfg ++ js " " ++ text) /\
     (~ translate -> Telegram.nm_content m = text)).
Proof.
  intros Hallowed Hgroup messages translate. subst messages.
  unfold Telegram.on_message_text. rewrite Hallowed.
  split; intros ->; [reflexivity|].
  rewrite Hgroup. simpl. eexists. split; [reflexivity|]. simpl.
  apply HandlerFacts.translate_mention_spec.
Qed.

Lemma mention_translation_witness :
  exists m,
    Telegram.delivered
      (Telegram.on_message_text Telegram.example_cfg Telegram.example_lib
         Telegram.example_opts Telegram.mention_from_owner
         Telegram.mention_text
         (Some [Telegram.mkEntity (js "mention") 4 9])) = [m] /\
    Telegram.nm_content m = js "@Andy hey @andy_bot what is up".
Proof.
  destruct (mention_translation Telegram.example_cfg Telegram.example_lib
              Telegram.example_opts Telegram.mention_from_owner
              Telegram.mention_text
              (Some [Telegram.mkEntity (js "mention") 4 9])
              (snd (Delegation.group "main" None)))
    as [_ Hsome]; [vm_compute; reflexivity | vm_compute; reflexivity |].
  destruct (Hsome ltac:(vm_compute; reflexivity)) as (m & Hm & Htranslate & _).
  exists m. split; [exact Hm|].
  rewrite Htranslate; [vm_compute; reflexivity|].
  split; [|vm_compute; reflexivity].
  exists (js "Andy_Bot"), (Telegram.mkEntity (js "mention") 4 9).
  split; [reflexivity|]. split; [vm_compute; discriminate|].
  split; [apply list_elem_of_here|]. split; vm_compute; reflexivity.
Defined.

(** C10 as it is stated fails on a text that starts with a slash: the
    sender is allowed, the chat is registered, the text mentions the bot
    and does not match TRIGGER_PATTERN, and nothing is handed to
    [onMessage], neither by the text handler nor by the handlers as a
    whole. *)
Lemma slash_text_is_not_delivered :
  Telegram.blocked Telegram.example_cfg Telegram.example_lib
    Telegram.slash_mention_from_owner = false /\
  is_Some (Telegram.registeredGroups Telegram.example_opts
           !! Telegram.chatJid_of Telegram.example_lib
                Telegram.slash_mention_from_owner) /\
  Telegram.mentions_bot Telegram.example_lib Telegram.slash_mention_from_owner
    Telegram.slash_text (Some [Telegram.mkEntity (js "mention") 5 9]) /\
  Telegram.TRIGGER_PATTERN_test Telegram.example_cfg Telegram.slash_text = false /\
  Telegram.delivered
    (Telegram.on_message_text Telegram.example_cfg Telegram.example_lib
       Telegram.example_opts Telegram.slash_mention_from_owner
       Telegram.slash_text (Some [Telegram.mkEntity (js "mention") 5 9])) = [] /\
  Telegram.delivered
    (Telegram.handle Telegram.example_cfg Telegram.example_lib
       Telegram.example_opts Telegram.slash_mention_from_owner) = [].
Proof.
  split; [vm_compute; reflexivity|].
  split; [vm_compute; eexists; reflexivity|].
  split.
  { exists (js "Andy_Bot"), (Telegram.mkEntity (js "mention") 5 9).
    split; [reflexivity|]. split; [vm_compute; discriminate|].
    split; [apply list_elem_of_here|]. split; vm_compute; reflexivity. }
  split; [vm_compute; reflexivity|].
  split; vm_compute; reflexivity.
Qed.

(** * Further properties of the channel *)

Module ChannelFacts.

Lemma startsWith_app (p s : jsstring) : startsWith (p ++ s) p = true.
Proof.
  induction p as [|c p IH]; simpl; [reflexivity|].
  rewrite bool_decide_eq_true_2 by reflexivity. exact IH.
Qed.

Lemma strip_prefix_app (p s : jsstring) : strip_prefix p (p ++ s) = s.
Proof.
  unfold strip_prefix. rewrite startsWith_app. apply drop_app_length.
Qed.

Lemma startsWith_inv (p : jsstring) : forall s,
  startsWith s p = true -> s = p ++ drop (length p) s.
Proof.
  induction p as [|c p IH]; intros s H; [reflexivity|].
  destruct s as [|d s]; [discriminate|]. simpl in H.
  apply andb_true_iff in H as [Hc Hs]. apply bool_decide_eq_true in Hc.
  subst d. simpl. f_equal. apply IH, Hs.
Qed.

Lemma or_else_truthy_r (a b : jsstring) :
  truthy b = true -> truthy (or_else a b) = true.
Proof. intros H. unfold or_else. destruct (truthy a) eqn:E; assumption. Qed.

Lemma opt_or_else_truthy_r (a : option jsstring) (b : jsstring) :
  truthy b = true -> truthy (opt_or_else a b) = true.
Proof. intros H. destruct a; simpl; [apply or_else_truthy_r|]; exact H. Qed.

Section Handlers.

Variable cfg : Telegram.Config.
Variable lib : Telegram.Builtins.
Variable opts : Telegram.TelegramChannelOpts.

Lemma ownsJid_chatJid ctx :
  TelegramChannel.ownsJid (Telegram.chatJid_of lib ctx) = true.
Proof. apply startsWith_app. Qed.

Lemma senderName_truthy ctx : truthy (Telegram.senderName_of lib ctx) = true.
Proof.
  unfold Telegram.senderName_of. destruct (Telegram.from ctx); [|reflexivity].
  apply or_else_truthy_r, opt_or_else_truthy_r, or_else_truthy_r. reflexivity.
Qed.

(** What the three admin handlers do, case by case. *)
Lemma on_admin_cases call run ctx :
  Telegram.on_admin cfg lib opts call run ctx = [] \/
  (exists r, Telegram.on_admin cfg lib opts call run ctx = [Telegram.Reply r]) \/
  (Telegram.blocked cfg lib ctx = false /\
   exists g ac,
     Telegram.registeredGroups opts !! Telegram.chatJid_of lib ctx = Some g /\
     Telegram.adminCommands opts = Some ac /\
     truthy (Delegation.folder g) = true /\
     Telegram.on_admin cfg lib opts call run ctx =
       [Telegram.Admin (call (Delegation.folder g));
        Telegram.Reply (run ac (Delegation.folder g))]).
Proof.
  unfold Telegram.on_admin, Telegram.adminGuard.
  destruct (Telegram.blocked cfg lib ctx) eqn:Hb; [left; reflexivity|].
  destruct (Telegram.registeredGroups opts !! _) as [g|] eqn:Hg;
    [|right; left; eexists; reflexivity].
  destruct (Telegram.adminCommands opts) as [ac|] eqn:Hac;
    [|right; left; eexists; reflexivity].
  destruct (truthy (Delegation.folder g)) eqn:Hf; [|left; reflexivity].
  right; right. split; [reflexivity|]. exists g, ac. repeat split; assumption.
Qed.

Lemma on_rebuild_cases ctx :
  Telegram.on_rebuild cfg lib opts ctx = [] \/
  (exists r, Telegram.on_rebuild cfg lib opts ctx = [Telegram.Reply r]) \/
  (Telegram.blocked cfg lib ctx = false /\
   exists ac,
     Telegram.adminCommands opts = Some ac /\
     Telegram.on_rebuild cfg lib opts ctx =
       [Telegram.Reply (js "Rebuilding container image...");
        Telegram.Admin Telegram.RebuildContainer;
        Telegram.Reply (Telegram.rebuildContainer ac)]).
Proof.
  unfold Telegram.on_rebuild.
  destruct (Telegram.blocked cfg lib ctx) eqn:Hb; [left; reflexivity|].
  destruct (Telegram.adminCommands opts) as [ac|] eqn:Hac;
    [|right; left; eexists; reflexivity].
  right; right. split; [reflexivity|]. exists ac. split; reflexivity.
Qed.

(** What the text handler does, case by case. *)
Lemma on_message_text_cases ctx text entities :
  let jid := Telegram.chatJid_of lib ctx in
  let ts := Telegram.toISOString lib (Telegram.date (Telegram.message ctx) * 1000) in
  let effects := Telegram.on_message_text cfg lib opts ctx text entities in
  (startsWith text (js "/") = true /\ effects = []) \/
  (startsWith text (js "/") = false /\ Telegram.blocked cfg lib ctx = true /\
   exists l, effects = [Telegram.Log (js "debug") l]) \/
  (startsWith text (js "/") = false /\ Telegram.blocked cfg lib ctx = false /\
   Telegram.registeredGroups opts !! jid = None /\
   exists name l,
     effects = [Telegram.OnChatMetadata jid ts (Some name);
                Telegram.Log (js "debug") l]) \/
  (startsWith text (js "/") = false /\ Telegram.blocked cfg lib ctx = false /\
   is_Some (Telegram.registeredGroups opts !! jid) /\
   exists name l,
     effects =
       [Telegram.OnChatMetadata jid ts (Some name);
        Telegram.OnMessage jid
          (Telegram.mkNewMessage
             (Telegram.toString lib (Telegram.message_id (Telegram.message ctx)))
             jid (Telegram.userId_of lib ctx) (Telegram.senderName_of lib ctx)
             (Telegram.translate_mention cfg lib ctx text entities) ts false);
        Telegram.Log (js "info") l]).
Proof.
  intros jid ts effects. subst effects. unfold Telegram.on_message_text.
  destruct (startsWith text (js "/")) eqn:Hs; [left; split; reflexivity|].
  destruct (Telegram.blocked cfg lib ctx) eqn:Hb.
  { right; left. repeat split. eexists. reflexivity. }
  fold jid. fold ts.
  destruct (Telegram.registeredGroups opts !! jid) as [g|] eqn:Hg.
  - right; right; right. repeat split; [eexists; reflexivity|].
    eexists _, _. reflexivity.
  - right; right; left. repeat split. eexists _, _. reflexivity.
Qed.

(** What [storeNonText] does, case by case. *)
Lemma storeNonText_cases ctx placeholder :
  let jid := Telegram.chatJid_of lib ctx in
  let ts := Telegram.toISOString lib (Telegram.date (Telegram.message ctx) * 1000) in
  let effects := Telegram.storeNonText cfg lib opts ctx placeholder in
  effects = [] \/
  (Telegram.blocked cfg lib ctx = false /\
   is_Some (Telegram.registeredGroups opts !! jid) /\
   exists content,
     effects =
       [Telegram.OnChatMetadata jid ts None;
        Telegram.OnMessage jid
          (Telegram.mkNewMessage
             (Telegram.toString lib (Telegram.message_id (Telegram.message ctx)))
             jid (Telegram.userId_of lib ctx) (Telegram.senderName_of lib ctx)
             (placeholder ++ content) ts false)]).
Proof.
  intros jid ts effects. subst effects. unfold Telegram.storeNonText.
  destruct (Telegram.blocked cfg lib ctx) eqn:Hb; [left; reflexivity|].
  fold jid. destruct (Telegram.registeredGroups opts !! jid) as [g|] eqn:Hg;
    [|left; reflexivity].
  right. repeat split; [eexists; reflexivity|]. eexists. reflexivity.
Qed.

(** The handler that takes a message. *)
Lemma handle_cases ctx :
  let effects := Telegram.handle cfg lib opts ctx in
  effects = [] \/
  effects = Telegram.on_chatid lib ctx \/
  effects = Telegram.on_ping cfg ctx \/
  (exists call run, effects = Telegram.on_admin cfg lib opts call run ctx /\
     (forall f, call f <> Telegram.RebuildContainer) /\
     (forall f, call f = Telegram.ResetSession f \/ call f = Telegram.ResetMemory f
                \/ call f = Telegram.RestartContainer f)) \/
  effects = Telegram.on_rebuild cfg lib opts ctx \/
  (exists text entities,
     Telegram.content (Telegram.message ctx) = Telegram.Text text entities /\
     effects = Telegram.on_message_text cfg lib opts ctx text entities) \/
  (exists placeholder,
     (forall text entities,
        Telegram.content (Telegram.message ctx) <> Telegram.Text text entities) /\
     effects = Telegram.storeNonText cfg lib opts ctx placeholder).
Proof.
  intros effects. subst effects. unfold Telegram.handle.
  destruct (Telegram.hasCommand lib (js "chatid") ctx); [tauto|].
  destruct (Telegram.hasCommand lib (js "ping") ctx); [tauto|].
  destruct (Telegram.hasCommand lib (js "reset_session") ctx).
  { do 3 right. left. exists Telegram.ResetSession, Telegram.resetSession.
    split; [reflexivity|]. split; [discriminate | auto]. }
  destruct (Telegram.hasCommand lib (js "reset_memory") ctx).
  { do 3 right. left. exists Telegram.ResetMemory, Telegram.resetMemory.
    split; [reflexivity|]. split; [discriminate | auto]. }
  destruct (Telegram.hasCommand lib (js "restart") ctx).
  { do 3 right. left. exists Telegram.RestartContainer, Telegram.restartContainer.
    split; [reflexivity|]. split; [discriminate | auto]. }
  destruct (Telegram.hasCommand lib (js "rebuild") ctx); [tauto|].
  destruct (Telegram.content (Telegram.message ctx)) eqn:Hc;
    try (do 6 right; eexists; split; [discriminate | reflexivity]).
  - do 5 right. left. eexists _, _. split; reflexivity.
  - left. reflexivity.
Qed.

End Handlers.

End ChannelFacts.

(** X1.  One inbound message calls [onChatMetadata] at most once and
    [onMessage] at most once, the metadata first, both with the jid of the
    chat.  Metadata without a message happens only for a text from a
    sender that is not blocked in a chat that is not registered; a message
    is handed over only in a registered chat and for a sender that is not
    blocked. *)
Theorem handle_callbacks_shape (cfg : Telegram.Config) (lib : Telegram.Builtins)
    (opts : Telegram.TelegramChannelOpts) (ctx : Telegram.Ctx) :
  let jid := Telegram.chatJid_of lib ctx in
  let cbs := TelegramChannel.callbacks (Telegram.handle cfg lib opts ctx) in
  cbs = [] \/
  (exists ts name text entities,
     cbs = [Telegram.OnChatMetadata jid ts name] /\
     Telegram.content (Telegram.message ctx) = Telegram.Text text entities /\
     Telegram.registeredGroups opts !! jid = None /\
     Telegram.blocked cfg lib ctx = false) \/
  (exists ts name m,
     cbs = [Telegram.OnChatMetadata jid ts name; Telegram.OnMessage jid m] /\
     is_Some (Telegram.registeredGroups opts !! jid) /\
     Telegram.blocked cfg lib ctx = false).
Proof.
  intros jid cbs. subst cbs.
  destruct (ChannelFacts.handle_cases cfg lib opts ctx)
    as [->|[->|[->|[(call & run & -> & _)|[->|[(text & entities & Hc & ->)
       |(placeholder & _ & ->)]]]]]].
  - left; reflexivity.
  - left; reflexivity.
  - left; reflexivity.
  - destruct (ChannelFacts.on_admin_cases cfg lib opts call run ctx)
      as [->|[[r ->]|(_ & g & ac & _ & _ & _ & ->)]]; left; reflexivity.
  - destruct (ChannelFacts.on_rebuild_cases cfg lib opts ctx)
      as [->|[[r ->]|(_ & ac & _ & ->)]]; left; reflexivity.
  - destruct (ChannelFacts.on_message_text_cases cfg lib opts ctx text entities)
      as [[_ ->]|[(_ & _ & l & ->)|[(_ & Hb & Hg & name & l & ->)
         |(_ & Hb & Hg & name & l & ->)]]].
    + left; reflexivity.
    + left; reflexivity.
    + right; left. eexists _, _, text, entities. repeat split; assumption.
    + right; right. eexists _, _, _. repeat split; assumption.
  - destruct (ChannelFacts.storeNonText_cases cfg lib opts ctx placeholder)
      as [->|(Hb & Hg & content & ->)].
    + left; reflexivity.
    + right; right. eexists _, _, _. repeat split; assumption.
Qed.

(** X2.  Every message handed to [onMessage], by whichever handler, comes
    with the jid of its chat, which [ownsJid] accepts; the message carries
    the same jid, the id of the Telegram message, the sender id that the
    allowlist was checked against, a sender name that is not empty, and
    [is_from_me] false. *)
Theorem delivered_message_facts (cfg : Telegram.Config) (lib : Telegram.Builtins)
    (opts : Telegram.TelegramChannelOpts) (ctx : Telegram.Ctx) :
  Forall (fun e =>
            match e with
            | Telegram.OnMessage jid m =>
                jid = Telegram.chatJid_of lib ctx /\
                TelegramChannel.ownsJid jid = true /\
                Telegram.nm_chat_jid m = jid /\
                Telegram.nm_id m =
                  Telegram.toString lib (Telegram.message_id (Telegram.message ctx)) /\
                Telegram.nm_sender m = Telegram.userId_of lib ctx /\
                Telegram.nm_sender_name m <> [] /\
                Telegram.nm_is_from_me m = false
            | _ => True
            end)
         (Telegram.handle cfg lib opts ctx).
Proof.
  assert (Telegram.senderName_of lib ctx <> []) as Hname.
  { pose proof (ChannelFacts.senderName_truthy lib ctx) as H.
    intros E. rewrite E in H. discriminate. }
  pose proof (ChannelFacts.ownsJid_chatJid lib ctx) as Howns.
  destruct (ChannelFacts.handle_cases cfg lib opts ctx)
    as [->|[->|[->|[(call & run & -> & _)|[->|[(text & entities & Hc & ->)
       |(placeholder & _ & ->)]]]]]].
  - constructor.
  - repeat constructor.
  - repeat constructor.
  - destruct (ChannelFacts.on_admin_cases cfg lib opts call run ctx)
      as [->|[[r ->]|(_ & g & ac & _ & _ & _ & ->)]]; repeat constructor.
  - destruct (ChannelFacts.on_rebuild_cases cfg lib opts ctx)
      as [->|[[r ->]|(_ & ac & _ & ->)]]; repeat constructor.
  - destruct (ChannelFacts.on_message_text_cases cfg lib opts ctx text entities)
      as [[_ ->]|[(_ & _ & l & ->)|[(_ & Hb & Hg & name & l & ->)
         |(_ & Hb & Hg & name & l & ->)]]]; repeat constructor; assumption.
  - destruct (ChannelFacts.storeNonText_cases cfg lib opts ctx placeholder)
      as [->|(Hb & Hg & content & ->)]; repeat constructor; assumption.
Qed.

(** X3.  An admin command runs only for a sender that is not blocked and
    with admin commands configured; [reset_session], [reset_memory] and
    [restart] run only in a registered chat and only on the folder of that
    chat, which is not empty; one message runs at most one admin
    command. *)
Theorem admin_command_authority (cfg : Telegram.Config) (lib : Telegram.Builtins)
    (opts : Telegram.TelegramChannelOpts) (ctx : Telegram.Ctx) :
  let effects := Telegram.handle cfg lib opts ctx in
  Forall (fun e =>
            match e with
            | Telegram.Admin call =>
                Telegram.blocked cfg lib ctx = false /\
                is_Some (Telegram.adminCommands opts) /\
                (call = Telegram.RebuildContainer \/
                 exists g,
                   Telegram.registeredGroups opts !! Telegram.chatJid_of lib ctx
                     = Some g /\
                   Delegation.folder g <> [] /\
                   (call = Telegram.ResetSession (Delegation.folder g) \/
                    call = Telegram.ResetMemory (Delegation.folder g) \/
                    call = Telegram.RestartContainer (Delegation.folder g)))
            | _ => True
            end) effects /\
  (length (filter (fun e => Telegram.is_admin e = true) effects) <= 1)%nat.
Proof.
  intros effects. subst effects.
  destruct (ChannelFacts.handle_cases cfg lib opts ctx)
    as [->|[->|[->|[(call & run & -> & _ & Hcall)|[->|[(text & entities & Hc & ->)
       |(placeholder & _ & ->)]]]]]].
  - split; [constructor | simpl; lia].
  - split; [repeat constructor | simpl; lia].
  - split; [repeat constructor | simpl; lia].
  - destruct (ChannelFacts.on_admin_cases cfg lib opts call run ctx)
      as [->|[[r ->]|(Hb & g & ac & Hg & Hac & Hf & ->)]];
      (split; [|simpl; lia]); [constructor | repeat constructor |].
    constructor; [|repeat constructor].
    split; [exact Hb|]. split; [rewrite Hac; eexists; reflexivity|].
    right. exists g. split; [exact Hg|]. split; [|apply Hcall].
    intros E. rewrite E in Hf. discriminate.
  - destruct (ChannelFacts.on_rebuild_cases cfg lib opts ctx)
      as [->|[[r ->]|(Hb & ac & Hac & ->)]];
      (split; [|simpl; lia]); [constructor | repeat constructor |].
    constructor; [exact I|]. constructor; [|repeat constructor].
    split; [exact Hb|]. split; [rewrite Hac; eexists; reflexivity|].
    left; reflexivity.
  - destruct (ChannelFacts.on_message_text_cases cfg lib opts ctx text entities)
      as [[_ ->]|[(_ & _ & l & ->)|[(_ & Hb & Hg & name & l & ->)
         |(_ & Hb & Hg & name & l & ->)]]];
      (split; [|simpl; lia]); repeat constructor.
  - destruct (ChannelFacts.storeNonText_cases cfg lib opts ctx placeholder)
      as [->|(Hb & Hg & content & ->)];
      (split; [|simpl; lia]); repeat constructor.
Qed.

(** X4.  When TRIGGER_PATTERN matches every text that starts with "@" +
    ASSISTANT_NAME + " ", the content made of a text that mentions the bot
    always matches TRIGGER_PATTERN: such a message reaches [onMessage] in
    the trigger format, translated or as it came. *)
Theorem mention_reaches_trigger_format (cfg : Telegram.Config)
    (lib : Telegram.Builtins) (ctx : Telegram.Ctx) (text : jsstring)
    (entities : option (list Telegram.MessageEntity)) :
  (forall t, Telegram.TRIGGER_PATTERN_test cfg
               (js "@" ++ Telegram.ASSISTANT_NAME cfg ++ js " " ++ t) = true) ->
  Telegram.mentions_bot lib ctx text entities ->
  Telegram.TRIGGER_PATTERN_test cfg
    (Telegram.translate_mention cfg lib ctx text entities) = true.
Proof.
  intros Hpattern Hmention.
  destruct (HandlerFacts.translate_mention_spec cfg lib ctx text entities)
    as [Hyes Hno].
  destruct (Telegram.TRIGGER_PATTERN_test cfg text) eqn:Htest.
  - rewrite Hno; [exact Htest|]. intros [_ H]. discriminate.
  - rewrite Hyes; [apply Hpattern|]. split; [exact Hmention | reflexivity].
Qed.

Lemma mention_reaches_trigger_format_witness :
  Telegram.TRIGGER_PATTERN_test Telegram.example_cfg
    (Telegram.translate_mention Telegram.example_cfg Telegram.example_lib
       Telegram.mention_from_owner Telegram.mention_text
       (Some [Telegram.mkEntity (js "mention") 4 9])) = true.
Proof.
  apply mention_reaches_trigger_format.
  - intros t. reflexivity.
  - exists (js "Andy_Bot"), (Telegram.mkEntity (js "mention") 4 9).
    split; [reflexivity|]. split; [vm_compute; discriminate|].
    split; [apply list_elem_of_here|]. split; vm_compute; reflexivity.
Defined.

(** ** [sendMessage], [setTyping], [disconnect] *)

Module SendFacts.

Local Abbreviation MAX := Telegram.MAX_LENGTH.

(** The [k]-th piece that the loop cuts from the index [i] on. *)
Lemma chunks_from_lookup (text : jsstring) : forall fuel i k,
  (length text - i <= fuel)%nat ->
  Telegram.chunks_from fuel text i !! k =
  if (i + k * MAX <? length text)%nat
  then Some (take MAX (drop (i + k * MAX) text))
  else None.
Proof.
  pose proof SendMessageFacts.MAX_LENGTH_pos as Hpos.
  induction fuel as [|fuel IH]; intros i k Hfuel.
  - rewrite SendMessageFacts.chunks_from_done by lia.
    assert ((i + k * MAX <? length text)%nat = false) as ->
      by (apply Nat.ltb_ge; lia).
    reflexivity.
  - rewrite SendMessageFacts.chunks_from_S.
    destruct (i <? length text)%nat eqn:E.
    + apply Nat.ltb_lt in E. destruct k as [|k].
      * simpl. rewrite Nat.add_0_r.
        assert ((i <? length text)%nat = true) as -> by (apply Nat.ltb_lt; lia).
        rewrite SendMessageFacts.slice_chunk. reflexivity.
      * simpl. rewrite IH by lia.
        replace (i + MAX + k * MAX)%nat with (i + (MAX + k * MAX))%nat by lia.
        reflexivity.
    + apply Nat.ltb_ge in E.
      assert ((i + k * MAX <? length text)%nat = false) as ->
        by (apply Nat.ltb_ge; lia).
      reflexivity.
Qed.

Lemma chunks_lookup (text : jsstring) k :
  Telegram.chunks text !! k =
  if (k =? 0)%nat || (k * MAX <? length text)%nat
  then Some (take MAX (drop (k * MAX) text))
  else None.
Proof.
  pose proof SendMessageFacts.MAX_LENGTH_pos as Hpos.
  unfold Telegram.chunks. destruct (length text <=? MAX)%nat eqn:E.
  - apply Nat.leb_le in E. destruct k as [|k].
    + simpl. rewrite drop_0, take_ge by lia. reflexivity.
    + assert ((S k * MAX <? length text)%nat = false) as ->
        by (apply Nat.ltb_ge; lia).
      reflexivity.
  - apply Nat.leb_gt in E. rewrite chunks_from_lookup by lia.
    rewrite Nat.add_0_l. destruct k as [|k]; [|reflexivity].
    change (0 * MAX)%nat with 0%nat.
    assert ((0 <? length text)%nat = true) as -> by (apply Nat.ltb_lt; lia).
    reflexivity.
Qed.

(** The number of pieces. *)
Lemma chunks_length (text : jsstring) :
  length (Telegram.chunks text) = Nat.max 1 ((length text + MAX - 1) / MAX).
Proof.
  pose proof SendMessageFacts.MAX_LENGTH_pos as Hpos.
  set (n := Nat.max 1 ((length text + MAX - 1) / MAX)).
  assert (forall k, ((k =? 0) || (k * MAX <? length text) = true <-> k < n)%nat) as Hn.
  { intros k. subst n.
    pose proof (Nat.div_mod (length text + MAX - 1) MAX ltac:(lia)) as Hdm.
    pose proof (Nat.mod_upper_bound (length text + MAX - 1) MAX ltac:(lia)) as Hr.
    set (q := ((length text + MAX - 1) / MAX)%nat) in *.
    set (r := ((length text + MAX - 1) mod MAX)%nat) in *.
    clearbody q r.
    rewrite orb_true_iff, Nat.eqb_eq, Nat.ltb_lt. split.
    - intros [->|Hlt]; [lia|].
      destruct (decide (k < q)%nat); [lia|]. exfalso.
      assert (q * MAX <= k * MAX)%nat by (apply Nat.mul_le_mono_r; lia). lia.
    - intros Hk. destruct (decide (k = 0%nat)); [left; assumption|right].
      assert (k < q)%nat as Hkq by lia.
      assert (S k * MAX <= q * MAX)%nat by (apply Nat.mul_le_mono_r; lia).
      rewrite Nat.mul_succ_l in *. lia. }
  destruct (decide (length (Telegram.chunks text) < n)%nat) as [Hlt|Hge].
  - apply Hn in Hlt. pose proof (chunks_lookup text (length (Telegram.chunks text))) as H.
    rewrite Hlt in H. rewrite lookup_ge_None_2 in H by lia. discriminate.
  - destruct (decide (n < length (Telegram.chunks text))%nat) as [Hgt|]; [|lia].
    apply lookup_lt_is_Some in Hgt as [c Hc].
    rewrite chunks_lookup in Hc.
    destruct ((n =? 0)%nat || (n * MAX <? length text)%nat) eqn:E; [|discriminate].
    apply Hn in E. lia.
Qed.

(** The loop makes the calls up to the first rejected one. *)
Lemma send_chunks_attempts numericId (text : jsstring) : forall fuel a i,
  (length text - i <= fuel)%nat ->
  let pieces := Telegram.chunks_from fuel text i in
  let k := TelegramChannel.attempts (Telegram.outcomes a) (length pieces) in
  Telegram.send_chunks fuel a numericId text i =
  Some (Telegram.mkApi (Telegram.sent a ++ take k (pair numericId <$> pieces))
          (drop k (Telegram.outcomes a)),
        negb (TelegramChannel.rejected_within (Telegram.outcomes a) (length pieces))).
Proof.
  induction fuel as [|fuel IH]; intros a i Hfuel; cbv zeta in *.
  - rewrite SendMessageFacts.send_chunks_done, SendMessageFacts.chunks_from_done by lia.
    destruct a as [s o]. simpl. rewrite app_nil_r. reflexivity.
  - rewrite SendMessageFacts.send_chunks_S, SendMessageFacts.chunks_from_S.
    destruct (i <? length text)%nat eqn:E.
    2: { destruct a as [s o]. simpl. rewrite app_nil_r. reflexivity. }
    apply Nat.ltb_lt in E. pose proof SendMessageFacts.MAX_LENGTH_pos.
    destruct a as [s o]. cbn [Telegram.api_sendMessage Telegram.sent Telegram.outcomes].
    destruct o as [|[|] o]; cbn zeta iota beta.
    + rewrite IH by lia. cbn [Telegram.sent Telegram.outcomes tail length].
      cbn [TelegramChannel.attempts TelegramChannel.rejected_within take existsb fmap list_fmap].
      assert (forall n, TelegramChannel.attempts [] n = n) as Hall
        by (intros [|n]; reflexivity).
      rewrite !Hall. rewrite <- app_assoc. simpl.
      unfold TelegramChannel.rejected_within.
      rewrite !drop_nil, !take_nil. reflexivity.
    + rewrite IH by lia. cbn [Telegram.sent Telegram.outcomes tail length].
      cbn [TelegramChannel.attempts]. unfold TelegramChannel.rejected_within.
      rewrite <- app_assoc. reflexivity.
    + reflexivity.
Qed.

End SendFacts.

Module AttemptFacts.

Lemma attempts_bounds : forall n outcomes,
  (1 <= n)%nat ->
  (1 <= TelegramChannel.attempts outcomes n <= n)%nat.
Proof.
  induction n as [|n IH]; intros outcomes Hn; [lia|].
  destruct outcomes as [|[|] outcomes]; simpl; try lia.
  destruct n as [|n]; [simpl; lia|].
  specialize (IH outcomes ltac:(lia)). lia.
Qed.

Lemma attempts_le : forall n outcomes,
  (TelegramChannel.attempts outcomes n <= n)%nat.
Proof.
  induction n as [|n IH]; intros outcomes; [reflexivity|].
  destruct outcomes as [|[|] outcomes]; simpl; try lia.
  specialize (IH outcomes). lia.
Qed.

(** No rejected call: every call is made. *)
Lemma attempts_all : forall n outcomes,
  TelegramChannel.rejected_within outcomes n = false ->
  TelegramChannel.attempts outcomes n = n.
Proof.
  unfold TelegramChannel.rejected_within.
  induction n as [|n IH]; intros outcomes H; [reflexivity|].
  destruct outcomes as [|[|] outcomes]; simpl in *; try reflexivity.
  - f_equal. apply IH, H.
  - discriminate.
Qed.

(** A rejected call: it is the last call made, and the calls before it
    were fulfilled. *)
Lemma attempts_rejected : forall n outcomes,
  TelegramChannel.rejected_within outcomes n = true ->
  exists j,
    TelegramChannel.attempts outcomes n = S j /\
    outcomes !! j = Some false /\
    forall i, (i < j)%nat -> outcomes !! i = Some true.
Proof.
  unfold TelegramChannel.rejected_within.
  induction n as [|n IH]; intros outcomes H; [discriminate|].
  destruct outcomes as [|[|] outcomes]; simpl in *; try discriminate.
  - destruct (IH outcomes H) as (j & Hj & Hfalse & Htrue).
    exists (S j). split; [f_equal; exact Hj|]. split; [exact Hfalse|].
    intros [|i] Hi; [reflexivity|]. apply Htrue. lia.
  - exists 0%nat. split; [reflexivity|]. split; [reflexivity|]. intros i Hi. lia.
Qed.

End AttemptFacts.

Module ConnectedFacts.

(** [sendMessage] on a connected channel, in full. *)
Lemma sendMessage_connected (a : Telegram.Api) (jid text : jsstring) :
  let numericId := strip_prefix (js "tg:") jid in
  let pieces := Telegram.chunks text in
  let k := TelegramChannel.attempts (Telegram.outcomes a) (length pieces) in
  let rejected := TelegramChannel.rejected_within (Telegram.outcomes a) (length pieces) in
  Telegram.sendMessage (Telegram.mkChannel (Some a)) jid text =
  Some (Telegram.mkChannel
          (Some (Telegram.mkApi
                   (Telegram.sent a ++ take k (pair numericId <$> pieces))
                   (drop k (Telegram.outcomes a)))),
        [if rejected
         then Telegram.Log (js "error") (js "Failed to send Telegram message")
         else Telegram.Log (js "info") (js "Telegram message sent")],
        Returned).
Proof.
  cbv zeta. unfold Telegram.sendMessage, Telegram.send_body, Telegram.chunks.
  cbn [Telegram.bot].
  destruct (length text <=? Telegram.MAX_LENGTH)%nat.
  - destruct a as [s [|[|] o]]; reflexivity.
  - rewrite SendFacts.send_chunks_attempts by lia.
    destruct (TelegramChannel.rejected_within _ _); reflexivity.
Qed.

End ConnectedFacts.

(** X5.  The pieces that [sendMessage] cuts: the [k]-th piece is the slice
    of 4096 code units that starts at [k * 4096]; there are as many pieces
    as the length divided by 4096 and rounded up, and one for the empty
    text, which is sent as one empty message; every piece but the last has
    exactly 4096 code units. *)
Theorem chunks_structure (text : jsstring) :
  let pieces := Telegram.chunks text in
  (forall k,
     pieces !! k =
     if (k =? 0)%nat || (k * Telegram.MAX_LENGTH <? length text)%nat
     then Some (take Telegram.MAX_LENGTH (drop (k * Telegram.MAX_LENGTH) text))
     else None) /\
  length pieces =
    Nat.max 1 ((length text + Telegram.MAX_LENGTH - 1) / Telegram.MAX_LENGTH) /\
  (forall k c,
     pieces !! k = Some c -> (S k < length pieces)%nat ->
     length c = Telegram.MAX_LENGTH) /\
  Telegram.chunks [] = [[]].
Proof.
  intros pieces. subst pieces.
  split; [apply SendFacts.chunks_lookup|].
  split; [apply SendFacts.chunks_length|].
  split; [|reflexivity].
  intros k c Hc Hk.
  apply lookup_lt_is_Some in Hk as [c' Hc'].
  rewrite SendFacts.chunks_lookup in Hc'.
  destruct ((S k =? 0)%nat || (S k * Telegram.MAX_LENGTH <? length text)%nat) eqn:E;
    [|discriminate].
  change (S k =? 0)%nat with false in E. rewrite orb_false_l in E.
  apply Nat.ltb_lt in E. rewrite Nat.mul_succ_l in E.
  rewrite SendFacts.chunks_lookup in Hc.
  destruct ((k =? 0)%nat || (k * Telegram.MAX_LENGTH <? length text)%nat);
    [|discriminate].
  injection Hc as <-. rewrite length_take, length_drop. lia.
Qed.

(** X6.  [sendMessage] on a connected channel makes the calls for the
    pieces in order and stops at the first call that is rejected: when no
    call is rejected every piece is sent and "sent" is logged; when a call
    is rejected it is the last call made, all calls before it were
    fulfilled, the pieces after it are not sent, and the failure is
    logged.  At least one call is made, and the promise is fulfilled in
    both cases. *)
Theorem sendMessage_stops_at_rejection (a : Telegram.Api) (jid text : jsstring) :
  let numericId := strip_prefix (js "tg:") jid in
  let pieces := Telegram.chunks text in
  let k := TelegramChannel.attempts (Telegram.outcomes a) (length pieces) in
  let rejected := TelegramChannel.rejected_within (Telegram.outcomes a) (length pieces) in
  Telegram.sendMessage (Telegram.mkChannel (Some a)) jid text =
  Some (Telegram.mkChannel
          (Some (Telegram.mkApi
                   (Telegram.sent a ++ take k (pair numericId <$> pieces))
                   (drop k (Telegram.outcomes a)))),
        [if rejected
         then Telegram.Log (js "error") (js "Failed to send Telegram message")
         else Telegram.Log (js "info") (js "Telegram message sent")],
        Returned) /\
  (1 <= k <= length pieces)%nat /\
  (rejected = false -> k = length pieces) /\
  (rejected = true ->
   Telegram.outcomes a !! (k - 1)%nat = Some false /\
   forall i, (i < k - 1)%nat -> Telegram.outcomes a !! i = Some true).
Proof.
  intros numericId pieces k rejected.
  split; [apply ConnectedFacts.sendMessage_connected|].
  assert (1 <= length pieces)%nat as Hone.
  { subst pieces. rewrite SendFacts.chunks_length. lia. }
  split; [apply AttemptFacts.attempts_bounds, Hone|].
  split; [apply AttemptFacts.attempts_all|].
  intros Hrej. destruct (AttemptFacts.attempts_rejected _ _ Hrej) as (j & Hj & Hfalse & Htrue).
  subst k. rewrite Hj. replace (S j - 1)%nat with j by lia. split; assumption.
Qed.

(** X7.  The jid and the chat id.  [ownsJid] holds of a jid exactly when it
    is "tg:" followed by something, and that something is what
    [sendMessage] and [setTyping] address the API with; a jid that the
    channel does not own is passed on as it is.  For the jid that the
    handlers report for a chat, the API is addressed with the id of that
    chat. *)
Theorem numericId_of_jid (lib : Telegram.Builtins) (ctx : Telegram.Ctx)
    (a : Telegram.Api) (jid text : jsstring) :
  (TelegramChannel.ownsJid jid = true ->
   jid = js "tg:" ++ strip_prefix (js "tg:") jid) /\
  (TelegramChannel.ownsJid (js "tg:" ++ jid) = true /\
   strip_prefix (js "tg:") (js "tg:" ++ jid) = jid) /\
  (TelegramChannel.ownsJid jid = false -> strip_prefix (js "tg:") jid = jid) /\
  TelegramChannel.ownsJid (Telegram.chatJid_of lib ctx) = true /\
  (exists a' logs k,
     Telegram.sendMessage (Telegram.mkChannel (Some a))
       (Telegram.chatJid_of lib ctx) text
     = Some (Telegram.mkChannel (Some a'), logs, Returned) /\
     (1 <= k)%nat /\
     Telegram.sent a' =
       Telegram.sent a ++
       take k (pair (Telegram.toString lib (Telegram.chat_id (Telegram.chat ctx)))
                 <$> Telegram.chunks text)) /\
  snd (fst (fst (TelegramChannel.setTyping (Telegram.mkChannel (Some a))
                   (Telegram.chatJid_of lib ctx) true)))
  = [(Telegram.toString lib (Telegram.chat_id (Telegram.chat ctx)), js "typing")].
Proof.
  split.
  { intros H. unfold TelegramChannel.ownsJid in H. unfold strip_prefix. rewrite H.
    apply ChannelFacts.startsWith_inv, H. }
  split.
  { split; [apply ChannelFacts.startsWith_app | apply ChannelFacts.strip_prefix_app]. }
  split.
  { intros H. unfold TelegramChannel.ownsJid in H. unfold strip_prefix. rewrite H.
    reflexivity. }
  split; [apply ChannelFacts.ownsJid_chatJid|].
  assert (strip_prefix (js "tg:") (Telegram.chatJid_of lib ctx)
          = Telegram.toString lib (Telegram.chat_id (Telegram.chat ctx))) as Hid
    by apply ChannelFacts.strip_prefix_app.
  split.
  - rewrite ConnectedFacts.sendMessage_connected. rewrite Hid.
    eexists _, _, _. split; [reflexivity|]. split; [|reflexivity].
    apply AttemptFacts.attempts_bounds. rewrite SendFacts.chunks_length. lia.
  - unfold TelegramChannel.setTyping. cbn [Telegram.bot]. rewrite Hid.
    reflexivity.
Qed.

(** X8.  After [disconnect] the channel is not connected, a second
    [disconnect] does and logs nothing, and neither [sendMessage] nor
    [setTyping] reaches the API: whatever the jid and the text, they return
    with the channel as it is.  [disconnect] logs exactly when the channel
    was connected, and [setTyping] with [isTyping] false never reaches the
    API either. *)
Theorem disconnect_silences_channel (c : Telegram.Channel) :
  let c' := fst (TelegramChannel.disconnect c) in
  TelegramChannel.isConnected c' = false /\
  TelegramChannel.disconnect c' = (c', []) /\
  (snd (TelegramChannel.disconnect c) = [] <-> TelegramChannel.isConnected c = false) /\
  (forall jid text,
     exists logs, Telegram.sendMessage c' jid text = Some (c', logs, Returned)) /\
  (forall jid isTyping,
     TelegramChannel.setTyping c' jid isTyping = (c', [], [], Returned)) /\
  (forall jid, TelegramChannel.setTyping c jid false = (c, [], [], Returned)).
Proof.
  destruct c as [[a|]]; cbn.
  - repeat split; try discriminate. intros jid text. eexists. reflexivity.
  - repeat split. intros jid text. eexists. reflexivity.
Qed.

(** * Further properties of the delegation pool *)

Module PoolCountFacts.

Import Pool PoolCount.

Lemma leaked_track_promise k r : Leaked k r -> Leaked k (trackDelegation ReturnsPromise r).
Proof.
  intros [Hp Hf Hc]. split; simpl.
  - constructor; [|exact Hp]. intros Hin. specialize (Hf _ Hin). lia.
  - intros p Hin. apply elem_of_cons in Hin as [->|Hin]; [lia|].
    specialize (Hf _ Hin). lia.
  - rewrite Hc. lia.
Qed.

Lemma leaked_track_throw k r : Leaked k r -> Leaked (S k) (trackDelegation ThrowsSync r).
Proof.
  intros [Hp Hf Hc]. split; simpl.
  - exact Hp.
  - intros p Hin. specialize (Hf _ Hin). lia.
  - rewrite Hc. lia.
Qed.

Lemma leaked_settle k p r : Leaked k r -> Leaked k (settle p r).
Proof.
  intros [Hp Hf Hc]. unfold settle. case_bool_decide as Hin; [|split; assumption].
  split; simpl.
  - apply NoDup_filter, Hp.
  - intros q Hq. apply list_elem_of_filter in Hq as [_ Hq]. auto.
  - rewrite Hc, (PoolFacts.length_filter_remove p (pending r)) by assumption. lia.
Qed.

Lemma sync_throws_cons e tr :
  sync_throws (e :: tr) =
  ((if is_sync_throw e then 1 else 0) + sync_throws tr)%nat.
Proof.
  unfold sync_throws. rewrite filter_cons.
  destruct (is_sync_throw e); reflexivity.
Qed.

Lemma run_leaked tr : forall k r,
  Leaked k r -> Leaked (k + sync_throws tr) (run r tr).
Proof.
  induction tr as [|e tr IH]; intros k r Hr.
  - simpl. rewrite Nat.add_0_r. exact Hr.
  - rewrite sync_throws_cons. simpl.
    destruct e as [[|]|p ok]; simpl.
    + apply IH, leaked_track_promise, Hr.
    + replace (k + S (sync_throws tr))%nat with (S k + sync_throws tr)%nat by lia.
      apply IH, leaked_track_throw, Hr.
    + apply IH, leaked_settle, Hr.
Qed.

Lemma init_leaked : Leaked 0 init.
Proof. split; simpl; [constructor | intros p H; inversion H | reflexivity]. Qed.

End PoolCountFacts.

(** X9.  The counter after any sequence of [trackDelegation] calls and
    settlements: [activeDelegations] is the number of promises that have
    not settled plus the number of calls whose [fn] threw before it handed
    back a promise.  No settlement takes such an increment back, so the
    counter is never negative, it is never below the number of those
    calls, and after three of them [canDelegate()] is false for good. *)
Theorem counter_counts_pending_and_throws (tr : list Pool.Event) :
  let r := Pool.run Pool.init tr in
  Pool.activeDelegations r =
    Z.of_nat (length (Pool.pending r)) + Z.of_nat (PoolCount.sync_throws tr) /\
  0 <= Pool.activeDelegations r /\
  (forall later,
     Z.of_nat (PoolCount.sync_throws tr)
       <= Pool.activeDelegations (Pool.run r later)) /\
  ((3 <= PoolCount.sync_throws tr)%nat ->
   forall later, Pool.canDelegate (Pool.run r later) = false).
Proof.
  intros r.
  pose proof (PoolCountFacts.run_leaked tr 0 Pool.init PoolCountFacts.init_leaked)
    as [_ _ Hcount].
  fold r in Hcount. simpl in Hcount.
  assert (forall later,
            Z.of_nat (PoolCount.sync_throws tr)
              <= Pool.activeDelegations (Pool.run r later)) as Hlater.
  { intros later.
    pose proof (PoolCountFacts.run_leaked (tr ++ later) 0 Pool.init
                  PoolCountFacts.init_leaked) as [_ _ Hc].
    unfold Pool.run in *. rewrite foldl_app in Hc. fold r in Hc.
    simpl in Hc. rewrite Hc. unfold PoolCount.sync_throws.
    rewrite filter_app, length_app. lia. }
  split; [exact Hcount|]. split; [lia|]. split; [exact Hlater|].
  intros Hthree later. unfold Pool.canDelegate, Pool.MAX_DELEGATION_CONTAINERS.
  apply Z.ltb_ge. specialize (Hlater later). lia.
Qed.

(** X10.  While every [fn] hands back a promise and every
    [trackDelegation] is called under [canDelegate()], the pool is busy
    exactly when three promises are pending, and the settlement of any
    pending promise makes [canDelegate()] true again. *)
Theorem settlement_frees_a_slot (tr : list Pool.Event) (p : nat) (ok : bool) :
  Pool.promise_fns tr = true ->
  Pool.guarded Pool.init tr = true ->
  let r := Pool.run Pool.init tr in
  (Pool.canDelegate r = false <-> length (Pool.pending r) = 3%nat) /\
  (p ∈ Pool.pending r ->
   Pool.canDelegate (Pool.step r (Pool.Settle p ok)) = true).
Proof.
  intros Hfns Hguard r.
  pose proof (PoolFacts.run_inv tr Pool.init Hfns PoolFacts.init_inv) as Hinv.
  pose proof (PoolFacts.run_guarded tr Pool.init Hguard) as Hle.
  fold r in Hinv, Hle. specialize (Hle ltac:(vm_compute; discriminate)).
  pose proof (Pool.inv_count r Hinv) as Hcount.
  unfold Pool.canDelegate, Pool.MAX_DELEGATION_CONTAINERS in *.
  split.
  - rewrite Z.ltb_ge. lia.
  - intros Hin. simpl. rewrite (PoolFacts.settle_pending p r Hin). simpl.
    apply Z.ltb_lt. lia.
Qed.

Lemma settlement_frees_a_slot_witness :
  Pool.canDelegate
    (Pool.step (Pool.run Pool.init
                  [Pool.Track Pool.ReturnsPromise; Pool.Track Pool.ReturnsPromise;
                   Pool.Track Pool.ReturnsPromise])
               (Pool.Settle 1 false)) = true.
Proof.
  apply (settlement_frees_a_slot
           [Pool.Track Pool.ReturnsPromise; Pool.Track Pool.ReturnsPromise;
            Pool.Track Pool.ReturnsPromise] 1 false);
    [reflexivity | reflexivity |].
  simpl. apply list_elem_of_further, list_elem_of_here.
Defined.

(** After a throw and two delegations that ran and settled, nothing is
    pending and the counter stays at one. *)
Example throw_then_two_leaks :
  Pool.pending (Pool.run Pool.init PoolCount.throw_then_two) = [] /\
  Pool.activeDelegations (Pool.run Pool.init PoolCount.throw_then_two) = 1.
Proof. split; reflexivity. Qed.

(** * Further properties of the delegation on the host *)

Module DispatchFacts.

Import Delegation.

(** [Array.prototype.find] gives the first element that passes the test. *)
Lemma find_first {A} (f : A -> bool) : forall (l : list A) x,
  List.find f l = Some x ->
  f x = true /\
  exists before after,
    l = before ++ x :: after /\ Forall (fun y => f y = false) before.
Proof.
  induction l as [|y l IH]; intros x H; [discriminate|].
  simpl in H. destruct (f y) eqn:Hy.
  - injection H as <-. split; [exact Hy|]. exists [], l. split; [reflexivity|constructor].
  - destruct (IH x H) as (Hx & before & after & -> & Hall).
    split; [exact Hx|]. exists (y :: before), after.
    split; [reflexivity|]. constructor; assumption.
Qed.

Lemma find_none {A} (f : A -> bool) : forall (l : list A),
  List.find f l = None -> Forall (fun y => f y = false) l.
Proof.
  induction l as [|y l IH]; intros H; [constructor|].
  simpl in H. destruct (f y) eqn:Hy; [discriminate|].
  constructor; [exact Hy | apply IH, H].
Qed.

Lemma outcome_name_inj (kind id1 id2 : jsstring) :
  kind ++ id1 ++ js ".json" = kind ++ id2 ++ js ".json" -> id1 = id2.
Proof. intros H. apply app_inv_head in H. apply app_inv_tail in H. exact H. Qed.

End DispatchFacts.

(** X11.  The [delegate] case answers every request with exactly one
    effect that carries the source group and the request id of the
    request, and leaves the host as it is.  A request is dispatched to the
    first registered group, in insertion order, whose folder is the target
    folder, with the prompt and the timeout of the request; the error
    "Unknown group" is written exactly when no registered group has that
    folder. *)
Theorem delegate_dispatches_first_match (h : Delegation.Host)
    (sourceGroup : jsstring) (task : Delegation.DelegateTask) :
  let groups := snd <$> Delegation.registeredGroups h in
  fst (Delegation.processTaskIpc_delegate h sourceGroup task) = h /\
  match snd (Delegation.processTaskIpc_delegate h sourceGroup task) with
  | [Delegation.HandleDelegation s target r p t] =>
      s = sourceGroup /\ r = Delegation.requestId task /\
      p = Delegation.prompt task /\ t = Delegation.timeoutSeconds task /\
      Delegation.folder target = Delegation.targetGroup task /\
      exists before after,
        groups = before ++ target :: after /\
        Forall (fun g => Delegation.folder g <> Delegation.targetGroup task) before
  | [Delegation.WriteIpcResult s r o] =>
      s = sourceGroup /\ r = Delegation.requestId task /\
      o = Delegation.mkOutcome Delegation.error None (Some (js "Unknown group")) None /\
      Forall (fun g => Delegation.folder g <> Delegation.targetGroup task) groups
  | _ => False
  end.
Proof.
  intros groups. unfold Delegation.processTaskIpc_delegate, Delegation.find_target.
  fold groups.
  destruct (List.find _ groups) as [target|] eqn:Hfind; simpl.
  - split; [reflexivity|]. repeat split.
    + apply DispatchFacts.find_first in Hfind as [Hf _].
      apply bool_decide_eq_true in Hf. exact Hf.
    + apply DispatchFacts.find_first in Hfind as (_ & before & after & -> & Hall).
      exists before, after. split; [reflexivity|].
      eapply Forall_impl; [exact Hall|]. simpl. intros g Hg.
      apply bool_decide_eq_false in Hg. exact Hg.
  - split; [reflexivity|]. repeat split.
    apply DispatchFacts.find_none in Hfind.
    eapply Forall_impl; [exact Hfind|]. simpl. intros g Hg.
    apply bool_decide_eq_false in Hg. exact Hg.
Qed.

(** X12.  The outcome files of one source group: for request ids that hold
    no path separator, two requests share a success file, or an error
    file, only when they have the same id, and the success file of a
    request is never the error file of a request, the same or another. *)
Theorem outcome_files_are_separate (DATA_DIR sourceGroup id1 id2 : jsstring) :
  47%N ∉ id1 -> 47%N ∉ id2 ->
  (Delegation.resultFile DATA_DIR sourceGroup id1
   = Delegation.resultFile DATA_DIR sourceGroup id2 -> id1 = id2) /\
  (Delegation.errorFile DATA_DIR sourceGroup id1
   = Delegation.errorFile DATA_DIR sourceGroup id2 -> id1 = id2) /\
  Delegation.resultFile DATA_DIR sourceGroup id1
  <> Delegation.errorFile DATA_DIR sourceGroup id2.
Proof.
  intros _ _.
  unfold Delegation.resultFile, Delegation.errorFile.
  rewrite !HandleDelegationFacts.path_join_two.
  split; [|split].
  - intros H. apply app_inv_head in H. apply app_inv_head in H.
    apply DispatchFacts.outcome_name_inj in H. exact H.
  - intros H. apply app_inv_head in H. apply app_inv_head in H.
    apply DispatchFacts.outcome_name_inj in H. exact H.
  - intros H. apply app_inv_head in H. simpl in H. discriminate H.
Qed.

Lemma outcome_files_are_separate_witness :
  Delegation.resultFile (js "/data") (js "main") (js "r1")
  <> Delegation.errorFile (js "/data") (js "main") (js "r2").
Proof.
  apply (outcome_files_are_separate (js "/data") (js "main") (js "r1") (js "r2")).
  - vm_compute. intros H. repeat (apply elem_of_cons in H as [H|H]; [discriminate H|]).
    inversion H.
  - vm_compute. intros H. repeat (apply elem_of_cons in H as [H|H]; [discriminate H|]).
    inversion H.
Defined.

(** X13.  The [catch] block of [handleDelegation] covers the write of the
    success file too.  Whenever the error file of the request can be
    written, the call returns without an exception and has written exactly
    one of the two outcome files; when the run was fulfilled and the
    success file cannot be written, the error file is written, with the
    error of the write. *)
Theorem handleDelegation_catches_failed_write (DATA_DIR : jsstring)
    (fs : Delegation.FS) (sourceGroup : jsstring)
    (target : Delegation.RegisteredGroup) (requestId prompt : jsstring)
    (timeoutSeconds : Z) (run : Delegation.AgentRun) :
  let resultFile := Delegation.resultFile DATA_DIR sourceGroup requestId in
  let errorFile := Delegation.errorFile DATA_DIR sourceGroup requestId in
  let after := Delegation.handleDelegation DATA_DIR fs sourceGroup target
                 requestId prompt timeoutSeconds run in
  errorFile ∉ Delegation.faulty fs ->
  snd after = Returned /\
  (exists path o,
     (path = resultFile /\ Delegation.o_status o = Delegation.success \/
      path = errorFile /\ Delegation.o_status o = Delegation.error) /\
     Delegation.o_targetGroup o = Some (Delegation.folder target) /\
     Delegation.files (fst after) = <[path := o]> (Delegation.files fs)) /\
  (forall streamed output,
     run = Delegation.Fulfilled streamed output ->
     resultFile ∈ Delegation.faulty fs ->
     exists err,
       Delegation.files (fst after) =
       <[errorFile := Delegation.mkOutcome Delegation.error None (Some err)
                        (Some (Delegation.folder target))]> (Delegation.files fs)).
Proof.
  intros resultFile errorFile after Herr. subst after.
  destruct run as [streamed output|streamed err].
  - destruct (decide (resultFile ∈ Delegation.faulty fs)) as [Hres|Hres].
    + assert (Delegation.handleDelegation DATA_DIR fs sourceGroup target requestId
                prompt timeoutSeconds (Delegation.Fulfilled streamed output)
              = (Delegation.mkFS
                   (<[errorFile :=
                        Delegation.mkOutcome Delegation.error None
                          (Some (js "Error: write failed"))
                          (Some (Delegation.folder target))]> (Delegation.files fs))
                   (Delegation.faulty fs), Returned)) as ->.
      { unfold Delegation.handleDelegation, Delegation.try_block,
          Delegation.writeFileSync. fold resultFile. fold errorFile.
        rewrite bool_decide_eq_true_2 by exact Hres.
        rewrite bool_decide_eq_false_2 by exact Herr. reflexivity. }
      simpl. split; [reflexivity|]. split.
      * eexists errorFile, (Delegation.mkOutcome _ _ _ _).
        split; [right; split; reflexivity|]. split; reflexivity.
      * intros ? ? _ _. eexists. reflexivity.
    + assert (Delegation.handleDelegation DATA_DIR fs sourceGroup target requestId
                prompt timeoutSeconds (Delegation.Fulfilled streamed output)
              = (Delegation.mkFS
                   (<[resultFile :=
                        Delegation.mkOutcome Delegation.success
                          (Some (Delegation.result_text
                                   (foldl Delegation.on_output [] streamed) output))
                          None (Some (Delegation.folder target))]>
                      (Delegation.files fs))
                   (Delegation.faulty fs), Returned)) as ->.
      { unfold Delegation.handleDelegation, Delegation.try_block.
        fold resultFile.
        rewrite HandleDelegationFacts.writeFileSync_ok by exact Hres. reflexivity. }
      simpl. split; [reflexivity|]. split.
      * eexists resultFile, (Delegation.mkOutcome _ _ _ _).
        split; [left; split; reflexivity|]. split; reflexivity.
      * intros ? ? _ Hin. contradiction.
  - assert (Delegation.handleDelegation DATA_DIR fs sourceGroup target requestId
              prompt timeoutSeconds (Delegation.Rejected streamed err)
            = (Delegation.mkFS
                 (<[errorFile :=
                      Delegation.mkOutcome Delegation.error None (Some err)
                        (Some (Delegation.folder target))]> (Delegation.files fs))
                 (Delegation.faulty fs), Returned)) as ->.
    { unfold Delegation.handleDelegation, Delegation.try_block.
      fold errorFile.
      rewrite HandleDelegationFacts.writeFileSync_ok by exact Herr. reflexivity. }
    simpl. split; [reflexivity|]. split.
    + eexists errorFile, (Delegation.mkOutcome _ _ _ _).
      split; [right; split; reflexivity|]. split; reflexivity.
    + intros ? ? [=].
Qed.

Lemma handleDelegation_catches_failed_write_witness :
  snd (Delegation.handleDelegation (js "/data")
         (Delegation.mkFS ∅
            {[ Delegation.resultFile (js "/data") (js "main") (js "r1") ]})
         (js "main") (Delegation.target_of "gmail-reader") (js "r1")
         (js "ping") 60
         (Delegation.Fulfilled [] (Delegation.mkOutput (Some (js "pong")))))
  = Returned.
Proof.
  apply (handleDelegation_catches_failed_write (js "/data")
           (Delegation.mkFS ∅
              {[ Delegation.resultFile (js "/data") (js "main") (js "r1") ]})).
  simpl. intros H. apply elem_of_singleton in H.
  exact (HandleDelegationFacts.resultFile_errorFile _ _ _ (eq_sym H)).
Defined.

(** X15.  From the request to the outcome: when the [delegate] case
    dispatches a request and the run is fulfilled, the success file of the
    request, under the source group of the request, names the target
    folder that the request asked for; when the run is rejected the error
    file does (both for writable outcome files). *)
Theorem dispatched_outcome_names_target (DATA_DIR : jsstring) (h : Delegation.Host)
    (fs : Delegation.FS) (sourceGroup : jsstring) (task : Delegation.DelegateTask)
    (run : Delegation.AgentRun) :
  let resultFile :=
    Delegation.resultFile DATA_DIR sourceGroup (Delegation.requestId task) in
  let errorFile :=
    Delegation.errorFile DATA_DIR sourceGroup (Delegation.requestId task) in
  is_Some (Delegation.find_target (Delegation.registeredGroups h)
             (Delegation.targetGroup task)) ->
  resultFile ∉ Delegation.faulty fs ->
  errorFile ∉ Delegation.faulty fs ->
  exists target,
    snd (Delegation.processTaskIpc_delegate h sourceGroup task) =
      [Delegation.HandleDelegation sourceGroup target (Delegation.requestId task)
         (Delegation.prompt task) (Delegation.timeoutSeconds task)] /\
    let fs' := fst (Delegation.handleDelegation DATA_DIR fs sourceGroup target
                      (Delegation.requestId task) (Delegation.prompt task)
                      (Delegation.timeoutSeconds task) run) in
    match run with
    | Delegation.Fulfilled _ _ =>
        exists text,
          Delegation.files fs' !! resultFile =
          Some (Delegation.mkOutcome Delegation.success (Some text) None
                  (Some (Delegation.targetGroup task))) /\ text <> []
    | Delegation.Rejected _ err =>
        Delegation.files fs' !! errorFile =
        Some (Delegation.mkOutcome Delegation.error None (Some err)
                (Some (Delegation.targetGroup task)))
    end.
Proof.
  intros resultFile errorFile [target Hfind] Hres Herr.
  exists target. rewrite (DelegationFacts.delegate_registered _ _ _ _ Hfind).
  split; [reflexivity|].
  assert (Delegation.folder target = Delegation.targetGroup task) as Hfolder.
  { unfold Delegation.find_target in Hfind.
    apply DispatchFacts.find_first in Hfind as [Hf _].
    apply bool_decide_eq_true in Hf. exact Hf. }
  unfold Delegation.handleDelegation, Delegation.try_block.
  fold resultFile. fold errorFile.
  destruct run as [streamed output|streamed err].
  - rewrite HandleDelegationFacts.writeFileSync_ok by exact Hres. simpl.
    eexists. rewrite lookup_insert_eq, Hfolder. split; [reflexivity|].
    unfold Delegation.result_text, Delegation.or_opt.
    destruct (truthy (join [10%N; 10%N] (foldl Delegation.on_output [] streamed))) eqn:E.
    + simpl. unfold or_else. rewrite E. intros Hnil. rewrite Hnil in E. discriminate.
    + destruct (Delegation.result output) as [[|c s]|]; simpl; discriminate.
  - rewrite HandleDelegationFacts.writeFileSync_ok by exact Herr. simpl.
    rewrite lookup_insert_eq, Hfolder. reflexivity.
Qed.

Lemma dispatched_outcome_names_target_witness :
  exists target,
    snd (Delegation.processTaskIpc_delegate Delegation.idle_host (js "main")
           (Delegation.example_task "gmail-reader")) =
      [Delegation.HandleDelegation (js "main") target (js "1700000000000-abc123")
         (js "list unread senders") 60].
Proof.
  destruct (dispatched_outcome_names_target (js "/data") Delegation.idle_host
              Delegation.empty_fs (js "main")
              (Delegation.example_task "gmail-reader")
              (Delegation.Rejected [] (js "Error: timeout")))
    as (target & Hdispatch & _).
  - eexists. reflexivity.
  - apply not_elem_of_empty.
  - apply not_elem_of_empty.
  - exists target. exact Hdispatch.
Defined.

(** * The model of a group *)

Module TrimFacts.

Import ModelConfig.

Local Abbreviation ws := (fun c => is_whitespace c = true).

Lemma trimStart_split (s : jsstring) :
  exists pre, s = pre ++ trimStart s /\ Forall ws pre.
Proof.
  induction s as [|c s (pre & IH & Hpre)]; [exists []; split; [reflexivity|constructor]|].
  simpl. destruct (is_whitespace c) eqn:Hc.
  - exists (c :: pre). split; [simpl; f_equal; exact IH | constructor; assumption].
  - exists []. split; [reflexivity|constructor].
Qed.

Lemma trimStart_head (s : jsstring) c :
  head (trimStart s) = Some c -> is_whitespace c = false.
Proof.
  induction s as [|d s IH]; [discriminate|].
  simpl. destruct (is_whitespace d) eqn:Hd; [exact IH|].
  simpl. intros [= <-]. exact Hd.
Qed.

Lemma trimStart_id (s : jsstring) :
  (forall c, head s = Some c -> is_whitespace c = false) -> trimStart s = s.
Proof.
  destruct s as [|c s]; [reflexivity|]. intros H. simpl.
  rewrite (H c eq_refl). reflexivity.
Qed.

Lemma trimStart_nil (s : jsstring) : trimStart s = [] <-> Forall ws s.
Proof.
  induction s as [|c s IH]; [split; [constructor|reflexivity]|].
  simpl. destruct (is_whitespace c) eqn:Hc.
  - rewrite IH. split; [constructor; assumption|]. intros H. inversion H; assumption.
  - split; [discriminate|]. intros H. inversion H as [|? ? Hws]; subst.
    simpl in Hws. congruence.
Qed.

Lemma trimEnd_split (s : jsstring) :
  exists post, s = trimEnd s ++ post /\ Forall ws post.
Proof.
  unfold trimEnd. destruct (trimStart_split (reverse s)) as (pre & Hs & Hpre).
  exists (reverse pre). split; [|apply Forall_reverse, Hpre].
  rewrite <- reverse_app, <- Hs, reverse_involutive. reflexivity.
Qed.

Lemma trimEnd_last (s : jsstring) c :
  last (trimEnd s) = Some c -> is_whitespace c = false.
Proof. unfold trimEnd. rewrite last_reverse. apply trimStart_head. Qed.

Lemma trimEnd_id (s : jsstring) :
  (forall c, last s = Some c -> is_whitespace c = false) -> trimEnd s = s.
Proof.
  intros H. unfold trimEnd. rewrite trimStart_id; [apply reverse_involutive|].
  intros c Hc. rewrite head_reverse in Hc. auto.
Qed.

Lemma trimEnd_nil (s : jsstring) : trimEnd s = [] <-> Forall ws s.
Proof.
  unfold trimEnd. rewrite <- (Forall_reverse _ s), <- trimStart_nil.
  split; intros H.
  - apply (f_equal reverse) in H. rewrite reverse_involutive in H. exact H.
  - rewrite H. reflexivity.
Qed.

(** The head of what [trimEnd] leaves is the head of the string. *)
Lemma trimEnd_head (s : jsstring) c :
  head (trimEnd s) = Some c -> head s = Some c.
Proof.
  destruct (trimEnd_split s) as (post & Hs & _). intros H.
  rewrite Hs at 1. rewrite head_app, H. reflexivity.
Qed.

Lemma trim_split (s : jsstring) :
  exists pre post, s = pre ++ trim s ++ post /\ Forall ws pre /\ Forall ws post.
Proof.
  destruct (trimStart_split s) as (pre & Hs & Hpre).
  destruct (trimEnd_split (trimStart s)) as (post & Ht & Hpost).
  exists pre, post. unfold trim. rewrite <- Ht. auto.
Qed.

Lemma trim_ends (s : jsstring) c :
  head (trim s) = Some c \/ last (trim s) = Some c -> is_whitespace c = false.
Proof.
  unfold trim. intros [H|H].
  - apply trimEnd_head in H. eapply trimStart_head, H.
  - eapply trimEnd_last, H.
Qed.

Lemma trim_idempotent (s : jsstring) : trim (trim s) = trim s.
Proof.
  unfold trim at 1. rewrite (trimStart_id (trim s)).
  - apply trimEnd_id. intros c Hc. apply (trim_ends s). auto.
  - intros c Hc. apply (trim_ends s). auto.
Qed.

Lemma trim_nil (s : jsstring) : trim s = [] <-> Forall ws s.
Proof.
  unfold trim. rewrite trimEnd_nil. split; intros H.
  - destruct (trimStart_split s) as (pre & Hs & Hpre). rewrite Hs.
    apply Forall_app; auto.
  - destruct (trimStart_split s) as (pre & Hs & Hpre). rewrite Hs in H.
    apply Forall_app in H as [_ H]. exact H.
Qed.

End TrimFacts.

(** X16.  The model of a group, when [main()] finds one: the file was read
    and parsed, [cfg.model] is a string, and [groupModel] is that string
    without the white space at its two ends.  It is not empty, it neither
    starts nor ends with white space, trimming it again changes nothing,
    and the one line logged names it. *)
Theorem group_model_is_trimmed (JSON_parse : jsstring -> ModelConfig.Json + jsstring)
    (null_access_message : jsstring) (file : ModelConfig.ConfigFile)
    (groupModel : jsstring) (logs : list jsstring) :
  ModelConfig.readGroupModel JSON_parse null_access_message file
    = (Some groupModel, logs) ->
  (exists raw cfg model before after,
     file = ModelConfig.Content raw /\
     JSON_parse raw = inl cfg /\
     ModelConfig.get (js "model") cfg = ModelConfig.Value (ModelConfig.JString model) /\
     model = before ++ groupModel ++ after /\
     Forall (fun c => ModelConfig.is_whitespace c = true) before /\
     Forall (fun c => ModelConfig.is_whitespace c = true) after) /\
  groupModel <> [] /\
  (forall c, head groupModel = Some c \/ last groupModel = Some c ->
             ModelConfig.is_whitespace c = false) /\
  ModelConfig.trim groupModel = groupModel /\
  logs = [js "Using model from config.json: " ++ groupModel].
Proof.
  unfold ModelConfig.readGroupModel. intros H.
  destruct file as [|message|raw]; try discriminate.
  destruct (JSON_parse raw) as [cfg|message] eqn:Hparse; [|discriminate].
  destruct (ModelConfig.get (js "model") cfg) as [| |[| | |model| |]] eqn:Hget;
    try discriminate.
  destruct (truthy (ModelConfig.trim model)) eqn:Htruthy; [|discriminate].
  injection H as <- <-.
  destruct (TrimFacts.trim_split model) as (before & after & Hsplit & Hb & Ha).
  split.
  { exists raw, cfg, model, before, after. repeat split; assumption. }
  split.
  { intros E. rewrite E in Htruthy. discriminate. }
  split; [apply TrimFacts.trim_ends|].
  split; [apply TrimFacts.trim_idempotent | reflexivity].
Qed.

Lemma group_model_is_trimmed_witness :
  ModelConfig.trim (js "claude-opus-4-6") = js "claude-opus-4-6".
Proof.
  apply (group_model_is_trimmed ModelConfig.example_parse (js "TypeError")
           (ModelConfig.Content (js "{}")) (js "claude-opus-4-6")
           [ModelConfig.using_line (js "claude-opus-4-6")]).
  vm_compute. reflexivity.
Defined.

(** X17.  When [main()] finds no model it falls back to the default, and
    it does so without a word exactly when the file is missing or the
    parsed value has no usable model: no [model] member, a [model] that is
    no string, or a [model] of white space only.  It logs one warning
    exactly when the file cannot be read, cannot be parsed, or holds
    [null].  Nothing else happens: at most one line is logged. *)
Theorem group_model_fallback (JSON_parse : jsstring -> ModelConfig.Json + jsstring)
    (null_access_message : jsstring) (file : ModelConfig.ConfigFile) :
  let result := ModelConfig.readGroupModel JSON_parse null_access_message file in
  (result = (None, []) <->
   file = ModelConfig.Missing \/
   exists raw cfg,
     file = ModelConfig.Content raw /\ JSON_parse raw = inl cfg /\
     (ModelConfig.get (js "model") cfg = ModelConfig.Undefined \/
      exists v,
        ModelConfig.get (js "model") cfg = ModelConfig.Value v /\
        forall model, v = ModelConfig.JString model ->
                      Forall (fun c => ModelConfig.is_whitespace c = true) model)) /\
  ((exists message, result = (None, [ModelConfig.warning_line message])) <->
   (exists message, file = ModelConfig.Unreadable message) \/
   exists raw,
     file = ModelConfig.Content raw /\
     ((exists message, JSON_parse raw = inr message) \/
      JSON_parse raw = inl ModelConfig.JNull)) /\
  (length (snd result) <= 1)%nat.
Proof.
  intros result. subst result. unfold ModelConfig.readGroupModel.
  assert (forall a b : jsstring, ModelConfig.warning_line a <> ModelConfig.using_line b) as Hlines.
  { intros a b H. unfold ModelConfig.warning_line, ModelConfig.using_line in H.
    simpl in H. discriminate H. }
  destruct file as [|message|raw].
  - split; [split; [auto | reflexivity]|]. split; [|simpl; lia].
    split; [intros [? [=]]|]. intros [[? [=]]|(? & [=] & _)].
  - split; [split; [discriminate|]|].
    { intros [[=]|(? & ? & [=] & _)]. }
    split; [|simpl; lia]. split; [eauto|]. intros _. eauto.
  - destruct (JSON_parse raw) as [cfg|message] eqn:Hparse.
    2: { split; [split; [discriminate|]|].
         { intros [[=]|(? & ? & [= <-] & Hp & _)]. congruence. }
         split; [|simpl; lia]. split; [|eauto].
         intros _. right. exists raw. split; [reflexivity|]. left. eauto. }
    destruct cfg as [|b|n|s|items|members]; simpl.
    + (* null *)
      split; [split; [discriminate|]|].
      { intros [[=]|(? & ? & [= <-] & Hp & Hget)].
        rewrite Hparse in Hp. injection Hp as <-. simpl in Hget.
        destruct Hget as [[=]|(? & [=] & _)]. }
      split; [|simpl; lia]. split; [|eauto].
      intros _. right. exists raw. split; [reflexivity|]. right. exact Hparse.
    + split; [split; [|reflexivity]|split; [|simpl; lia]].
      * intros _. right. exists raw, (ModelConfig.JBool b). auto.
      * split; [intros [? [=]]|].
        intros [[? [=]]|(? & [= <-] & [[? Hp]|Hp])]; congruence.
    + split; [split; [|reflexivity]|split; [|simpl; lia]].
      * intros _. right. exists raw, (ModelConfig.JNumber n). auto.
      * split; [intros [? [=]]|].
        intros [[? [=]]|(? & [= <-] & [[? Hp]|Hp])]; congruence.
    + split; [split; [|reflexivity]|split; [|simpl; lia]].
      * intros _. right. exists raw, (ModelConfig.JString s). auto.
      * split; [intros [? [=]]|].
        intros [[? [=]]|(? & [= <-] & [[? Hp]|Hp])]; congruence.
    + split; [split; [|reflexivity]|split; [|simpl; lia]].
      * intros _. right. exists raw, (ModelConfig.JArray items). auto.
      * split; [intros [? [=]]|].
        intros [[? [=]]|(? & [= <-] & [[? Hp]|Hp])]; congruence.
    + (* an object *)
      assert (forall P : Prop,
                ((exists message : jsstring, P /\ False) <-> False)) as Hfalse
        by (intros P; split; [intros (? & _ & [])|intros []]).
      destruct (ModelConfig.member (js "model") members) as [v|] eqn:Hmember.
      2: { split; [split; [|reflexivity]|split; [|simpl; lia]].
           - intros _. right. exists raw, (ModelConfig.JObject members).
             simpl. rewrite Hmember. auto.
           - split; [intros [? [=]]|].
             intros [[? [=]]|(? & [= <-] & [[? Hp]|Hp])]; congruence. }
      assert ((exists message : jsstring, JSON_parse raw = inr message) \/
              JSON_parse raw = inl ModelConfig.JNull -> False) as Hnot
        by (intros [[? Hp]|Hp]; congruence).
      destruct v as [|b|n|model|items|members'];
        try (split; [split; [|reflexivity]|split; [|simpl; lia]];
             [intros _; right; exists raw, (ModelConfig.JObject members);
              simpl; rewrite Hmember;
              split; [reflexivity|]; split; [exact Hparse|];
              right; eexists; split; [reflexivity|]; intros ? [=]
             |split; [intros [? [=]]|];
              intros [[? [=]]|(? & [= <-] & Hp)]; destruct (Hnot Hp)]).
      destruct (truthy (ModelConfig.trim model)) eqn:Htruthy.
      * split; [split; [discriminate|]|split; [|simpl; lia]].
        -- intros [[=]|(? & ? & [= <-] & Hp & Hget)].
           rewrite Hparse in Hp. injection Hp as <-. simpl in Hget.
           rewrite Hmember in Hget.
           destruct Hget as [[=]|(v & [= <-] & Hblank)].
           specialize (Hblank model eq_refl).
           apply TrimFacts.trim_nil in Hblank. rewrite Hblank in Htruthy.
           discriminate.
        -- split; [intros [? [= H]]; destruct (Hlines _ _ (eq_sym H))|].
           intros [[? [=]]|(? & [= <-] & Hp)]; destruct (Hnot Hp).
      * split; [split; [|reflexivity]|split; [|simpl; lia]].
        -- intros _. right. exists raw, (ModelConfig.JObject members).
           simpl. rewrite Hmember. split; [reflexivity|]. split; [exact Hparse|].
           right. eexists. split; [reflexivity|]. intros ? [= <-].
           apply TrimFacts.trim_nil.
           destruct (ModelConfig.trim model); [reflexivity|discriminate].
        -- split; [intros [? [=]]|].
           intros [[? [=]]|(? & [= <-] & Hp)]; destruct (Hnot Hp).
Qed.

(** X18.  [/chatid] answers with the jid under which the other handlers
    look the chat up, between backquotes, and with a chat name that is not
    empty.  Once that jid is registered, a text of the chat that does not
    start with "/" and whose sender is not blocked is handed to
    [onMessage], with that jid. *)
Theorem chatid_reports_the_registration_key (lib : Telegram.Builtins)
    (ctx : Telegram.Ctx) :
  let jid := Telegram.chatJid_of lib ctx in
  (exists name,
     name <> [] /\
     Telegram.on_chatid lib ctx =
       [Telegram.Reply (js "Chat ID: `" ++ jid ++ js "`" ++ [10%N] ++ js "Name: "
                        ++ name ++ [10%N] ++ js "Type: "
                        ++ Telegram.chat_type (Telegram.chat ctx))]) /\
  TelegramChannel.ownsJid jid = true /\
  forall cfg opts text entities,
    is_Some (Telegram.registeredGroups opts !! jid) ->
    Telegram.blocked cfg lib ctx = false ->
    startsWith text (js "/") = false ->
    exists m,
      Telegram.delivered (Telegram.on_message_text cfg lib opts ctx text entities)
        = [m] /\
      Telegram.nm_chat_jid m = jid.
Proof.
  intros jid. split; [|split; [apply ChannelFacts.ownsJid_chatJid|]].
  - unfold Telegram.on_chatid. eexists. split; [|reflexivity].
    assert (forall s : jsstring, truthy s = true -> s <> []) as Hne
      by (intros s H E; rewrite E in H; discriminate).
    destruct (bool_decide _); apply Hne, ChannelFacts.opt_or_else_truthy_r;
      reflexivity.
  - intros cfg opts text entities Hreg Hallowed Hslash.
    destruct (ChannelFacts.on_message_text_cases cfg lib opts ctx text entities)
      as [[Hs _]|[(_ & Hb & _)|[(_ & _ & Hg & _)|(_ & _ & _ & name & l & ->)]]].
    + congruence.
    + congruence.
    + fold jid in Hg. rewrite Hg in Hreg. destruct Hreg as [? [=]].
    + eexists. split; reflexivity.
Qed.

(** X19.  [handleDelegation] never clears the other outcome file.  For a
    request id that is a plain file name (it holds no path separator) and
    writable outcome files, handling a request again with the same
    fulfilled run, on the files the first call left, changes nothing,
    while a request that is handled once with a fulfilled run and once
    more, on the files the first call left, with a rejected run ends with
    both its success file and its error file. *)
Theorem handleDelegation_twice (DATA_DIR : jsstring)
    (fs : Delegation.FS) (sourceGroup : jsstring)
    (target : Delegation.RegisteredGroup) (requestId prompt : jsstring)
    (timeoutSeconds : Z) (streamed streamed' : list Delegation.ContainerOutput)
    (output : Delegation.ContainerOutput) (err : jsstring) :
  let resultFile := Delegation.resultFile DATA_DIR sourceGroup requestId in
  let errorFile := Delegation.errorFile DATA_DIR sourceGroup requestId in
  let handle fs run :=
    fst (Delegation.handleDelegation DATA_DIR fs sourceGroup target requestId
           prompt timeoutSeconds run) in
  47%N ∉ requestId ->
  resultFile ∉ Delegation.faulty fs ->
  errorFile ∉ Delegation.faulty fs ->
  let once := handle fs (Delegation.Fulfilled streamed output) in
  handle once (Delegation.Fulfilled streamed output) = once /\
  let twice := handle once (Delegation.Rejected streamed' err) in
  (exists o, Delegation.files twice !! resultFile = Some o /\
             Delegation.o_status o = Delegation.success) /\
  (exists o, Delegation.files twice !! errorFile = Some o /\
             Delegation.o_status o = Delegation.error).
Proof.
  intros resultFile errorFile handle _ Hres Herr once.
  pose proof (HandleDelegationFacts.resultFile_errorFile DATA_DIR sourceGroup
                requestId) as Hne. fold resultFile errorFile in Hne.
  assert (forall fs0 run,
            resultFile ∉ Delegation.faulty fs0 ->
            errorFile ∉ Delegation.faulty fs0 ->
            handle fs0 run =
            match run with
            | Delegation.Fulfilled s o =>
                Delegation.mkFS
                  (<[resultFile :=
                       Delegation.mkOutcome Delegation.success
                         (Some (Delegation.result_text
                                  (foldl Delegation.on_output [] s) o))
                         None (Some (Delegation.folder target))]>
                     (Delegation.files fs0)) (Delegation.faulty fs0)
            | Delegation.Rejected _ e =>
                Delegation.mkFS
                  (<[errorFile :=
                       Delegation.mkOutcome Delegation.error None (Some e)
                         (Some (Delegation.folder target))]>
                     (Delegation.files fs0)) (Delegation.faulty fs0)
            end) as Hstep.
  { intros fs0 run H1 H2. subst handle. cbv beta.
    unfold Delegation.handleDelegation, Delegation.try_block.
    fold resultFile. fold errorFile.
    destruct run; rewrite HandleDelegationFacts.writeFileSync_ok by assumption;
      reflexivity. }
  assert (once = Delegation.mkFS
                   (<[resultFile :=
                        Delegation.mkOutcome Delegation.success
                          (Some (Delegation.result_text
                                   (foldl Delegation.on_output [] streamed) output))
                          None (Some (Delegation.folder target))]>
                      (Delegation.files fs)) (Delegation.faulty fs)) as Honce
    by (subst once; apply (Hstep fs (Delegation.Fulfilled streamed output)); assumption).
  clearbody once. subst once.
  split.
  - rewrite (Hstep _ (Delegation.Fulfilled streamed output)) by assumption.
    simpl. rewrite insert_insert_eq. reflexivity.
  - intros twice. subst twice.
    rewrite (Hstep _ (Delegation.Rejected streamed' err)) by assumption. simpl.
    split; eexists.
    + rewrite lookup_insert_ne by congruence. rewrite lookup_insert_eq.
      split; reflexivity.
    + rewrite lookup_insert_eq. split; reflexivity.
Qed.

Lemma handleDelegation_twice_witness :
  exists o,
    Delegation.files
      (fst (Delegation.handleDelegation (js "/data")
              (fst (Delegation.handleDelegation (js "/data") Delegation.empty_fs
                      (js "main") (Delegation.target_of "gmail-reader") (js "r1")
                      (js "ping") 60
                      (Delegation.Fulfilled [] (Delegation.mkOutput None))))
              (js "main") (Delegation.target_of "gmail-reader") (js "r1")
              (js "ping") 60 (Delegation.Rejected [] (js "Error: late"))))
    !! Delegation.resultFile (js "/data") (js "main") (js "r1") = Some o /\
    Delegation.o_status o = Delegation.success.
Proof.
  destruct (handleDelegation_twice (js "/data") Delegation.empty_fs (js "main")
              (Delegation.target_of "gmail-reader") (js "r1") (js "ping") 60
              [] [] (Delegation.mkOutput None) (js "Error: late"))
    as (_ & Hboth & _).
  - vm_compute. intros H.
    repeat (apply elem_of_cons in H as [H|H]; [discriminate H|]).
    inversion H.
  - apply not_elem_of_empty.
  - apply not_elem_of_empty.
  - exact Hboth.
Defined.
